(** * notification-migrator: the migration pipeline of [migration.go]

    A shallow embedding of the three migration stages ([migrateUsers],
    [migrateNotificationTypes], [migrateNotifications]) and of the
    orchestrator [runMigration], together with the parts of the libraries
    they call: [pkg/errors], the [squirrel] insert builder, [encoding/json]
    decoding into [map[string]interface{}] and the two [*sql.Tx] handles.

    The two databases are tables held as lists.  A database call can fail
    for reasons of the driver's own (a lost connection, a constraint of the
    destination schema, which is not part of the repository): the driver's
    coming outcomes are part of the world the functions run in.  The rows of
    a query come one by one, each [rows.Next()] being such a call.  The
    columns read hold no NULL, so that [Scan] into a string does not fail.
    A payload is a string of bytes, taken to be well-formed UTF-8;
    [float64] and its two conversions to and from text are left abstract. *)

From Stdlib Require Import ZArith Ascii String.
From stdpp Require Import base option list strings pretty gmap sorting.

Local Open Scope string_scope.
Local Open Scope list_scope.

(** ** Errors: [fmt.Errorf], [errors.Wrap] and the errors of the libraries *)

Inductive error : Type :=
| errorString (s : string)
| driverError (s : string)
| withMessage (cause : error) (msg : string)
| SyntaxError (msg : string)
| UnmarshalTypeError (Value GoType : string).

(** [errors.Wrap(err, msg)]; the callers only wrap non-nil errors. *)
Definition Wrap (err : error) (msg : string) : error := withMessage err msg.

(** The [Error()] method. *)
Fixpoint Error (e : error) : string :=
  match e with
  | errorString s => s
  | driverError s => s
  | withMessage cause msg => msg +:+ ": " +:+ Error cause
  | SyntaxError msg => msg
  | UnmarshalTypeError v t =>
      "json: cannot unmarshal " +:+ v +:+ " into Go value of type " +:+ t
  end.

(** What a call ends in: a result with a nil error, a non-nil error, or a
    run-time panic that unwinds the whole call stack. *)
Inductive outcome (A : Type) : Type :=
| Ok (a : A)
| Err (e : error)
| Panic (msg : string).
Arguments Ok {A} a.
Arguments Err {A} e.
Arguments Panic {A} msg.

(** ** Characters *)

Definition quote : ascii := "034"%char.
Definition backslash : ascii := "092"%char.

Definition is_space (c : ascii) : bool :=
  let n := nat_of_ascii c in
  (n =? 32)%nat || (n =? 9)%nat || (n =? 10)%nat || (n =? 13)%nat.

Definition is_digit (c : ascii) : bool :=
  let n := nat_of_ascii c in (48 <=? n)%nat && (n <=? 57)%nat.

Definition is_upper (c : ascii) : bool :=
  let n := nat_of_ascii c in (65 <=? n)%nat && (n <=? 90)%nat.

(** SQL [lower] on one byte: the letters A-Z move to a-z, every other byte
    stays (case folding outside ASCII depends on the database locale and is
    left alone here). *)
Definition lower_ascii (c : ascii) : ascii :=
  if is_upper c then ascii_of_nat (nat_of_ascii c + 32) else c.

Fixpoint lower (s : string) : string :=
  match s with
  | EmptyString => EmptyString
  | String c s' => String (lower_ascii c) (lower s')
  end.

Definition hex_value (c : ascii) : option N :=
  let n := N_of_ascii c in
  if (48 <=? n)%N && (n <=? 57)%N then Some (n - 48)%N
  else if (97 <=? n)%N && (n <=? 102)%N then Some (n - 87)%N
  else if (65 <=? n)%N && (n <=? 70)%N then Some (n - 55)%N
  else None.

Definition hex_digit (n : N) : ascii :=
  if (n <? 10)%N then ascii_of_N (48 + n) else ascii_of_N (87 + n).

(** [getu4] without the leading backslash-u. *)
Definition hex4 (a b c d : ascii) : option N :=
  match hex_value a, hex_value b, hex_value c, hex_value d with
  | Some x, Some y, Some z, Some w => Some (x * 4096 + y * 256 + z * 16 + w)%N
  | _, _, _, _ => None
  end.

(** [utf8.EncodeRune]. *)
Definition utf8 (r : N) : string :=
  let b (n : N) := ascii_of_N n in
  (if r <? 128 then String (b r) ""
   else if r <? 2048 then
     String (b (192 + r / 64)) (String (b (128 + r mod 64)) "")
   else if r <? 65536 then
     String (b (224 + r / 4096))
       (String (b (128 + (r / 64) mod 64)) (String (b (128 + r mod 64)) ""))
   else
     String (b (240 + r / 262144))
       (String (b (128 + (r / 4096) mod 64))
          (String (b (128 + (r / 64) mod 64))
             (String (b (128 + r mod 64)) ""))))%N.

Definition replacementChar : N := 65533.

(** [utf16.DecodeRune]. *)
Definition decodeSurrogates (r1 r2 : N) : N :=
  if (55296 <=? r1)%N && (r1 <? 56320)%N && (56320 <=? r2)%N && (r2 <? 57344)%N
  then ((r1 - 55296) * 1024 + (r2 - 56320) + 65536)%N
  else replacementChar.

Definition isSurrogate (r : N) : bool := (55296 <=? r)%N && (r <? 57344)%N.

(** ** [encoding/json]: the scanner *)

Inductive token : Type :=
| TLBrace | TRBrace | TLBracket | TRBracket | TColon | TComma
| TString (s : string)
| TNumber (lit : string)
| TTrue | TFalse | TNull.

(** The two-character escapes of a string literal. *)
Definition unescape (c : ascii) : option ascii :=
  let n := nat_of_ascii c in
  if (n =? 34)%nat then Some quote
  else if (n =? 92)%nat then Some backslash
  else if (n =? 47)%nat then Some "/"%char
  else if (n =? 98)%nat then Some "008"%char
  else if (n =? 102)%nat then Some "012"%char
  else if (n =? 110)%nat then Some "010"%char
  else if (n =? 114)%nat then Some "013"%char
  else if (n =? 116)%nat then Some "009"%char
  else None.

Definition prepend (p : string) (r : option (string * string))
  : option (string * string) :=
  match r with
  | Some (s, rest) => Some (p +:+ s, rest)
  | None => None
  end.

(** The body of a string literal, from just after its opening quote: the
    decoded bytes and the input left after the closing quote.  Bytes from
    128 up are taken as they come (well-formed UTF-8 is assumed). *)
Fixpoint scan_string (s : string) : option (string * string) :=
  match s with
  | EmptyString => None
  | String c rest =>
      if Ascii.eqb c quote then Some ("", rest)
      else if Ascii.eqb c backslash then
        match rest with
        | EmptyString => None
        | String e rest1 =>
            if Ascii.eqb e "u"%char then
              match rest1 with
              | String h1 (String h2 (String h3 (String h4 rest5))) =>
                  match hex4 h1 h2 h3 h4 with
                  | None => None
                  | Some rr =>
                      if isSurrogate rr then
                        match rest5 with
                        | String b1 (String b2 (String l1 (String l2
                            (String l3 (String l4 rest11))))) =>
                            match
                              (if Ascii.eqb b1 backslash && Ascii.eqb b2 "u"%char
                               then hex4 l1 l2 l3 l4 else None)
                            with
                            | Some rr1 =>
                                if (decodeSurrogates rr rr1 =? replacementChar)%N
                                then prepend (utf8 replacementChar)
                                       (scan_string rest5)
                                else prepend (utf8 (decodeSurrogates rr rr1))
                                       (scan_string rest11)
                            | None =>
                                prepend (utf8 replacementChar) (scan_string rest5)
                            end
                        | _ => prepend (utf8 replacementChar) (scan_string rest5)
                        end
                      else prepend (utf8 rr) (scan_string rest5)
                  end
              | _ => None
              end
            else
              match unescape e with
              | Some b => prepend (String b "") (scan_string rest1)
              | None => None
              end
        end
      else if (nat_of_ascii c <? 32)%nat then None
      else prepend (String c "") (scan_string rest)
  end.

Definition is_number_char (c : ascii) : bool :=
  is_digit c || Ascii.eqb c "-"%char || Ascii.eqb c "+"%char
  || Ascii.eqb c "."%char || Ascii.eqb c "e"%char || Ascii.eqb c "E"%char.

(** The longest run of number characters and what follows it. *)
Fixpoint scan_number (s : string) : string * string :=
  match s with
  | EmptyString => ("", "")
  | String c rest =>
      if is_number_char c
      then let '(lit, r) := scan_number rest in (String c lit, r)
      else ("", s)
  end.

Fixpoint skip_digits (s : string) : string :=
  match s with
  | String c rest => if is_digit c then skip_digits rest else s
  | EmptyString => s
  end.

Definition starts_with_digit (s : string) : bool :=
  match s with String c _ => is_digit c | EmptyString => false end.

(** The exponent of a number literal, after its e or E. *)
Definition valid_exponent (s : string) : bool :=
  let s1 :=
    match s with
    | String c rest =>
        if Ascii.eqb c "+"%char || Ascii.eqb c "-"%char then rest else s
    | EmptyString => s
    end in
  starts_with_digit s1 && bool_decide (skip_digits s1 = "").

Definition valid_after_fraction (s : string) : bool :=
  match s with
  | EmptyString => true
  | String c rest =>
      (Ascii.eqb c "e"%char || Ascii.eqb c "E"%char) && valid_exponent rest
  end.

Definition valid_after_integer (s : string) : bool :=
  match s with
  | EmptyString => true
  | String c rest =>
      if Ascii.eqb c "."%char
      then starts_with_digit rest && valid_after_fraction (skip_digits rest)
      else (Ascii.eqb c "e"%char || Ascii.eqb c "E"%char) && valid_exponent rest
  end.

(** The grammar of a JSON number: an optional minus, 0 or a digit string
    without leading 0, an optional fraction, an optional exponent. *)
Definition valid_number (lit : string) : bool :=
  let s :=
    match lit with
    | String c rest => if Ascii.eqb c "-"%char then rest else lit
    | EmptyString => lit
    end in
  match s with
  | EmptyString => false
  | String c rest =>
      if Ascii.eqb c "0"%char then valid_after_integer rest
      else is_digit c && valid_after_integer (skip_digits rest)
  end.

(** What is left of [s] after its prefix [p]. *)
Fixpoint strip_prefix (p s : string) : option string :=
  match p with
  | EmptyString => Some s
  | String a p' =>
      match s with
      | String b s' => if Ascii.eqb a b then strip_prefix p' s' else None
      | EmptyString => None
      end
  end.

(** The tokens of the input; [None] is a syntax error.  Every step takes at
    least one byte, so [fuel] above the length of the input is enough
    ([lex_fuel] below). *)
Fixpoint lex (fuel : nat) (s : string) : option (list token) :=
  match fuel with
  | O => None
  | S fuel' =>
      match s with
      | EmptyString => Some []
      | String c rest =>
          let punct (t : token) := cons t <$> lex fuel' rest in
          let word (w : string) (t : token) :=
            match strip_prefix w s with
            | Some r => cons t <$> lex fuel' r
            | None => None
            end in
          if is_space c then lex fuel' rest
          else if Ascii.eqb c "{"%char then punct TLBrace
          else if Ascii.eqb c "}"%char then punct TRBrace
          else if Ascii.eqb c "["%char then punct TLBracket
          else if Ascii.eqb c "]"%char then punct TRBracket
          else if Ascii.eqb c ":"%char then punct TColon
          else if Ascii.eqb c ","%char then punct TComma
          else if Ascii.eqb c quote then
            match scan_string rest with
            | Some (str, r) => cons (TString str) <$> lex fuel' r
            | None => None
            end
          else if Ascii.eqb c "t"%char then word "true" TTrue
          else if Ascii.eqb c "f"%char then word "false" TFalse
          else if Ascii.eqb c "n"%char then word "null" TNull
          else if is_digit c || Ascii.eqb c "-"%char then
            let '(lit, r) := scan_number s in
            if valid_number lit then cons (TNumber lit) <$> lex fuel' r else None
          else None
      end
  end.

(** ** [encoding/json]: values

    A value decoded into [interface{}]: nil, bool, a number, string,
    [[]interface{}] or [map[string]interface{}].  The type is shared by the
    syntax tree, whose numbers are still literals and whose objects list
    their members as written, and by the decoded value, whose numbers are
    [float64] and whose objects are maps. *)

#[local] Set Warnings "-register-all".
Inductive json (num : Type) : Type :=
| JNull
| JBool (b : bool)
| JNumber (n : num)
| JString (s : string)
| JArray (elems : list (json num))
| JObject (members : list (string * json num)).
Arguments JNull {num}.
Arguments JBool {num} b.
Arguments JNumber {num} n.
Arguments JString {num} s.
Arguments JArray {num} elems.
Arguments JObject {num} members.

(** A Go map with string keys, kept as the list of its entries in
    increasing key order (the order in which [json.Marshal] writes them):
    [obj_get] is [m[k]] and [obj_set] is [m[k] = v]. *)
Fixpoint obj_get {V : Type} (k : string) (m : list (string * V)) : option V :=
  match m with
  | [] => None
  | (k', v) :: m' => if decide (k = k') then Some v else obj_get k m'
  end.

Fixpoint obj_set {V : Type} (k : string) (v : V) (m : list (string * V))
  : list (string * V) :=
  match m with
  | [] => [(k, v)]
  | (k', v') :: m' =>
      match String.compare k k' with
      | Eq => (k, v) :: m'
      | Lt => (k, v) :: (k', v') :: m'
      | Gt => (k', v') :: obj_set k v m'
      end
  end.

(** ** [encoding/json]: the parser *)

Fixpoint parse_value (fuel : nat) (ts : list token)
  : option (json string * list token) :=
  match fuel with
  | O => None
  | S fuel' =>
      match ts with
      | TNull :: r => Some (JNull, r)
      | TTrue :: r => Some (JBool true, r)
      | TFalse :: r => Some (JBool false, r)
      | TNumber lit :: r => Some (JNumber lit, r)
      | TString s :: r => Some (JString s, r)
      | TLBracket :: TRBracket :: r => Some (JArray [], r)
      | TLBracket :: r =>
          match parse_elements fuel' r with
          | Some (vs, r') => Some (JArray vs, r')
          | None => None
          end
      | TLBrace :: TRBrace :: r => Some (JObject [], r)
      | TLBrace :: r =>
          match parse_members fuel' r with
          | Some (ms, r') => Some (JObject ms, r')
          | None => None
          end
      | _ => None
      end
  end
with parse_elements (fuel : nat) (ts : list token)
  : option (list (json string) * list token) :=
  match fuel with
  | O => None
  | S fuel' =>
      match parse_value fuel' ts with
      | Some (v, TRBracket :: r) => Some ([v], r)
      | Some (v, TComma :: r) =>
          match parse_elements fuel' r with
          | Some (vs, r') => Some (v :: vs, r')
          | None => None
          end
      | _ => None
      end
  end
with parse_members (fuel : nat) (ts : list token)
  : option (list (string * json string) * list token) :=
  match fuel with
  | O => None
  | S fuel' =>
      match ts with
      | TString k :: TColon :: r =>
          match parse_value fuel' r with
          | Some (v, TRBrace :: r') => Some ([(k, v)], r')
          | Some (v, TComma :: r') =>
              match parse_members fuel' r' with
              | Some (ms, r'') => Some ((k, v) :: ms, r'')
              | None => None
              end
          | _ => None
          end
      | _ => None
      end
  end.

(** [checkValid] and the scan of one top-level value; the fuel is enough
    for any input ([parse_any_fuel] below). *)
Definition parse (data : string) : option (json string) :=
  match lex (S (String.length data)) data with
  | Some ts =>
      match parse_value (S (2 * length ts)) ts with
      | Some (v, []) => Some v
      | _ => None
      end
  | None => None
  end.

Section Decoding.

(** [float64] with [strconv.ParseFloat(s, 64)] and the number format of
    [json.Marshal]; binary floating point itself stays outside the model. *)
Variable float64 : Type.
Variable ParseFloat : string → option float64.
Variable FormatFloat : float64 → string.

(** [convertNumber] and the rest of the decoding of a syntax tree into
    [interface{}]; of several errors the first one met is reported. *)
Fixpoint decode_value (v : json string) : error + json float64 :=
  match v with
  | JNull => inr JNull
  | JBool b => inr (JBool b)
  | JString s => inr (JString s)
  | JNumber lit =>
      match ParseFloat lit with
      | Some f => inr (JNumber f)
      | None => inl (UnmarshalTypeError ("number " +:+ lit) "float64")
      end
  | JArray vs =>
      let fix elements (vs : list (json string))
        : error + list (json float64) :=
        match vs with
        | [] => inr []
        | v :: vs' =>
            match decode_value v, elements vs' with
            | inl e, _ => inl e
            | inr _, inl e => inl e
            | inr d, inr ds => inr (d :: ds)
            end
        end in
      match elements vs with
      | inl e => inl e
      | inr ds => inr (JArray ds)
      end
  | JObject ms =>
      let fix members (ms : list (string * json string))
                      (acc : list (string * json float64))
        : error + list (string * json float64) :=
        match ms with
        | [] => inr acc
        | (k, v) :: ms' =>
            match decode_value v with
            | inl e => inl e
            | inr d => members ms' (obj_set k d acc)
            end
        end in
      match members ms [] with
      | inl e => inl e
      | inr m => inr (JObject m)
      end
  end.

Definition mapType : string := "map[string]interface {}".

(** [json.Unmarshal(data, &outgoing)] for [outgoing] a nil
    [map[string]interface{}]: [Ok None] leaves the map nil (the input is
    the literal null), [Ok (Some m)] stores the decoded object.  A syntax
    error is reported as such; the wording of the scanner's message, which
    quotes the offending byte, is not reproduced. *)
Definition Unmarshal (data : string)
  : outcome (option (list (string * json float64))) :=
  match parse data with
  | None => Err (SyntaxError "invalid JSON input")
  | Some JNull => Ok None
  | Some (JObject ms) =>
      match decode_value (JObject ms) with
      | inr (JObject m) => Ok (Some m)
      | inr _ => Ok None
      | inl e => Err e
      end
  | Some (JArray _) => Err (UnmarshalTypeError "array" mapType)
  | Some (JString _) => Err (UnmarshalTypeError "string" mapType)
  | Some (JNumber _) => Err (UnmarshalTypeError "number" mapType)
  | Some (JBool _) => Err (UnmarshalTypeError "bool" mapType)
  end.

(** [json.Marshal] writes a string with the quote and the backslash escaped,
    newline, carriage return and tab as their two-character escapes, and the
    other control bytes and the HTML characters as a [\u00xx] escape. *)
Definition encode_byte (c : ascii) : string :=
  let n := N_of_ascii c in
  if Ascii.eqb c quote || Ascii.eqb c backslash then String backslash (String c "")
  else if (n =? 10)%N then String backslash "n"
  else if (n =? 13)%N then String backslash "r"
  else if (n =? 9)%N then String backslash "t"
  else if (n <? 32)%N || Ascii.eqb c "<"%char || Ascii.eqb c ">"%char
          || Ascii.eqb c "&"%char
  then String backslash
         ("u00" +:+ String (hex_digit (n / 16)) (String (hex_digit (n mod 16)) ""))
  else String c "".

(** The line and paragraph separators U+2028 and U+2029 (the bytes 226 128
    168 and 226 128 169) are written as escapes too; the other bytes from
    128 up are written as they are. *)
Fixpoint encode_bytes (s : string) : string :=
  match s with
  | EmptyString => ""
  | String c s' =>
      match s' with
      | String c2 (String c3 rest) =>
          if (N_of_ascii c =? 226)%N && (N_of_ascii c2 =? 128)%N
             && ((N_of_ascii c3 =? 168)%N || (N_of_ascii c3 =? 169)%N)
          then String backslash
                 ("u202" +:+ String (hex_digit (N_of_ascii c3 - 160)) "")
               +:+ encode_bytes rest
          else encode_byte c +:+ encode_bytes s'
      | _ => encode_byte c +:+ encode_bytes s'
      end
  end.

Definition encode_string (s : string) : string :=
  String quote (encode_bytes s +:+ String quote "").

Fixpoint join (sep : string) (l : list string) : string :=
  match l with
  | [] => ""
  | [s] => s
  | s :: l' => s +:+ sep +:+ join sep l'
  end.

Fixpoint encode_value (v : json float64) : string :=
  match v with
  | JNull => "null"
  | JBool b => if b then "true" else "false"
  | JNumber f => FormatFloat f
  | JString s => encode_string s
  | JArray vs => "[" +:+ join "," (map encode_value vs) +:+ "]"
  | JObject ms =>
      "{" +:+ join ","
               (map (λ kv, encode_string (fst kv) +:+ ":" +:+ encode_value (snd kv)) ms)
          +:+ "}"
  end.

(** [json.Marshal(outgoing)]: the entries of a map are written in
    increasing key order; a nil map is written as null.  No value that
    [Unmarshal] produces makes it fail. *)
Definition Marshal (m : option (list (string * json float64))) : outcome string :=
  match m with
  | None => Ok "null"
  | Some ms => Ok (encode_value (JObject ms))
  end.

End Decoding.

(** ** [squirrel]: the insert statement builder *)

(** A query argument or a column value, as [driver.Value] carries it. *)
Inductive value : Type :=
| VText (s : string)
| VBool (b : bool)
| VTime (t : Z).

Record InsertBuilder : Type := {
  into : string;
  columns : list string;
  values : list (list value);
}.

(** The statement [ToSql] produces: [INSERT INTO st_into (st_columns) VALUES
    (...),(...)] with one parenthesised group of placeholders per row, and
    the rows' values as its arguments. *)
Record Statement : Type := {
  st_into : string;
  st_columns : list string;
  st_rows : list (list value);
}.

Definition Insert (table : string) : InsertBuilder :=
  {| into := table; columns := []; values := [] |}.

Definition Columns (cols : list string) (b : InsertBuilder) : InsertBuilder :=
  {| into := into b; columns := columns b ++ cols; values := values b |}.

Definition Values (row : list value) (b : InsertBuilder) : InsertBuilder :=
  {| into := into b; columns := columns b; values := values b ++ [row] |}.

Definition ToSql (b : InsertBuilder) : outcome Statement :=
  if String.eqb (into b) "" then
    Err (errorString "insert statements must specify a table")
  else
    match values b with
    | [] =>
        Err (errorString
               "insert statements must have at least one set of values or select clause")
    | _ :: _ =>
        Ok {| st_into := into b; st_columns := columns b; st_rows := values b |}
    end.

(** ** The two databases *)

(** The source tables, with the columns the queries name. *)
Record SourceUser : Type := {
  su_id : string;
  su_username : string;
}.

Record SourceNotification : Type := {
  sn_uuid : string;
  sn_type : string;
  sn_user_id : string;
  sn_subject : string;
  sn_seen : bool;
  sn_deleted : bool;
  sn_date_created : Z;
  sn_message : string;
}.

Record SourceDB : Type := {
  source_users : list SourceUser;
  source_notifications : list SourceNotification;
}.

(** The destination tables.  The destination gives each new user and
    notification type an identity of its own: the [generated]-th identity
    it hands out is [new_id generated]. *)
Record DestUser : Type := {
  du_id : string;
  du_username : string;
}.

Record DestNotificationType : Type := {
  nt_id : string;
  nt_name : string;
}.

Record DestNotification : Type := {
  dn_id : string;
  dn_notification_type_id : string;
  dn_user_id : string;
  dn_subject : string;
  dn_seen : bool;
  dn_deleted : bool;
  dn_time_created : Z;
  dn_incoming_json : string;
  dn_outgoing_json : string;
}.

Record DestDB : Type := {
  users : list DestUser;
  notification_types : list DestNotificationType;
  notifications : list DestNotification;
  generated : nat;
  new_id : nat → string;
}.

(** What the two transactions and the process have come to: the source
    snapshot, the destination as the pending transaction sees it, the
    outcomes the driver has in store for the coming database calls ([Some
    msg] makes a call fail with that message; past the end of the list
    calls succeed), the statements passed to [destTx.Exec] so far, and the
    lines printed. *)
Record World : Type := {
  source : SourceDB;
  dest : DestDB;
  faults : list (option string);
  issued : list Statement;
  stdout : list string;
}.

Definition set_dest (d : DestDB) (w : World) : World :=
  {| source := source w; dest := d; faults := faults w;
     issued := issued w; stdout := stdout w |}.

Definition set_faults (fs : list (option string)) (w : World) : World :=
  {| source := source w; dest := dest w; faults := fs;
     issued := issued w; stdout := stdout w |}.

Definition set_issued (sts : list Statement) (w : World) : World :=
  {| source := source w; dest := dest w; faults := faults w;
     issued := sts; stdout := stdout w |}.

Definition set_stdout (out : list string) (w : World) : World :=
  {| source := source w; dest := dest w; faults := faults w;
     issued := issued w; stdout := out |}.

(** ** Calls that act on the world *)

Definition M (A : Type) : Type := World → outcome A * World.

#[export] Instance M_ret : MRet M := λ A a w, (Ok a, w).

#[export] Instance M_bind : MBind M := λ A B k m w,
  match m w with
  | (Ok a, w') => k a w'
  | (Err e, w') => (Err e, w')
  | (Panic msg, w') => (Panic msg, w')
  end.

(** [return err] *)
Definition fail {A : Type} (e : error) : M A := λ w, (Err e, w).

Definition panic {A : Type} (msg : string) : M A := λ w, (Panic msg, w).

(** A call that touches no database. *)
Definition pure {A : Type} (o : outcome A) : M A := λ w, (o, w).

(** [x, err := m; if err != nil { return errors.Wrap(err, wrapMsg) }] *)
Definition wrapping {A : Type} (wrapMsg : string) (m : M A) : M A := λ w,
  match m w with
  | (Err e, w') => (Err (Wrap e wrapMsg), w')
  | r => r
  end.

(** A look at the world that changes nothing. *)
Definition reading {A : Type} (f : World → A) : M A := λ w, (Ok (f w), w).

Definition Println (line : string) : M unit := λ w,
  (Ok tt, set_stdout (stdout w ++ [line]) w).

(** One round trip to a database: the driver's next outcome decides it. *)
Definition driver_says (w : World) : option string :=
  match faults w with
  | Some msg :: _ => Some msg
  | _ => None
  end.

Definition after_call (w : World) : World := set_faults (tail (faults w)) w.

Definition db_call : M unit := λ w,
  match driver_says w with
  | Some msg => (Err (driverError msg), after_call w)
  | None => (Ok tt, after_call w)
  end.

Inductive table : Type := Users | NotificationTypes | Notifications.

Definition row_count (t : table) (d : DestDB) : nat :=
  match t with
  | Users => length (users d)
  | NotificationTypes => length (notification_types d)
  | Notifications => length (notifications d)
  end.

(** [destTx.QueryRow("SELECT count(*) FROM t")] and the [Scan] of its row. *)
Definition QueryRow_count (t : table) : M Z :=
  db_call ;; reading (λ w, Z.of_nat (row_count t (dest w))).

(** [sourceTx.Query("SELECT username FROM users")]: the query fails, or it
    opens a stream on the rows of its result, which the caller reads through
    [rows_Next] (below). *)
Definition Query_usernames : M (list string) :=
  db_call ;; reading (λ w, su_username <$> source_users (source w)).

(** [sourceTx.Query("SELECT DISTINCT lower(type) FROM notifications")]; the
    rows of the stream are in the order [remove_dups] leaves (SQL fixes
    none). *)
Definition distinct_lower_types (s : SourceDB) : list string :=
  remove_dups ((λ n, lower (sn_type n)) <$> source_notifications s).

Definition Query_notification_types : M (list string) :=
  db_call ;; reading (λ w, distinct_lower_types (source w)).

(** [destTx.Query("SELECT id, name FROM notification_types")]; the rows of
    the stream are in the order of the table. *)
Definition Query_notification_type_ids : M (list (string * string)) :=
  db_call ;;
  reading (λ w, (λ t, (nt_id t, nt_name t)) <$> notification_types (dest w)).

(** [destTx.Query("SELECT id, username FROM users")]; the rows of the stream
    are in the order of the table. *)
Definition Query_user_ids : M (list (string * string)) :=
  db_call ;; reading (λ w, (λ u, (du_id u, du_username u)) <$> users (dest w)).

(** The variables one [Scan] of the notification query fills.  [Scan]
    renders the seen and deleted flags and the creation time as text, and
    the destination reads the text back on insert; the record holds the
    column values themselves. *)
Record NotificationRow : Type := {
  r_id : string;
  r_notificationType : string;
  r_username : string;
  r_subject : string;
  r_seen : bool;
  r_deleted : bool;
  r_timeCreated : Z;
  r_message : string;
}.

Definition select_row (n : SourceNotification) (u : SourceUser) : NotificationRow :=
  {| r_id := sn_uuid n;
     r_notificationType := lower (sn_type n);
     r_username := su_username u;
     r_subject := sn_subject n;
     r_seen := sn_seen n;
     r_deleted := sn_deleted n;
     r_timeCreated := sn_date_created n;
     r_message := sn_message n |}.

(** [FROM notifications n JOIN users u ON n.user_id = u.id] *)
Definition join_users (s : SourceDB) : list NotificationRow :=
  n ← source_notifications s;
  u ← filter (λ u, su_id u = sn_user_id n) (source_users s);
  [select_row n u].

(** The order of [ORDER BY n.date_created]. *)
Definition created_before (a b : NotificationRow) : Prop :=
  (r_timeCreated a ≤ r_timeCreated b)%Z.

#[export] Instance created_before_dec : RelDecision created_before.
Proof. intros a b. unfold created_before. apply _. Defined.

(** The rows of the notification query; of the orders SQL allows for rows
    of equal creation time, the stream has them in the one [merge_sort]
    leaves. *)
Definition notification_query (s : SourceDB) : list NotificationRow :=
  merge_sort created_before (join_users s).

Definition Query_notifications : M (list NotificationRow) :=
  db_call ;; reading (λ w, notification_query (source w)).

(** [destTx.Exec(statement, args...)]: the destination takes the rows of an
    insert into one of its three tables, in the columns the migration
    writes; it gives the rows of [users] and [notification_types] an
    identity each. *)
Definition insert_user (d : DestDB) (row : list value) : option DestDB :=
  match row with
  | [VText username] =>
      Some {| users := users d ++
                [{| du_id := new_id d (generated d); du_username := username |}];
              notification_types := notification_types d;
              notifications := notifications d;
              generated := S (generated d);
              new_id := new_id d |}
  | _ => None
  end.

Definition insert_notification_type (d : DestDB) (row : list value)
  : option DestDB :=
  match row with
  | [VText name] =>
      Some {| users := users d;
              notification_types := notification_types d ++
                [{| nt_id := new_id d (generated d); nt_name := name |}];
              notifications := notifications d;
              generated := S (generated d);
              new_id := new_id d |}
  | _ => None
  end.

Definition notification_of (row : list value) : option DestNotification :=
  match row with
  | [VText id; VText notification_type_id; VText user_id; VText subject;
     VBool seen; VBool deleted; VTime time_created;
     VText incoming_json; VText outgoing_json] =>
      Some {| dn_id := id;
              dn_notification_type_id := notification_type_id;
              dn_user_id := user_id;
              dn_subject := subject;
              dn_seen := seen;
              dn_deleted := deleted;
              dn_time_created := time_created;
              dn_incoming_json := incoming_json;
              dn_outgoing_json := outgoing_json |}
  | _ => None
  end.

Definition insert_notification (d : DestDB) (row : list value) : option DestDB :=
  match notification_of row with
  | Some n =>
      Some {| users := users d;
              notification_types := notification_types d;
              notifications := notifications d ++ [n];
              generated := generated d;
              new_id := new_id d |}
  | None => None
  end.

Fixpoint insert_rows (ins : DestDB → list value → option DestDB)
    (rows : list (list value)) (d : DestDB) : option DestDB :=
  match rows with
  | [] => Some d
  | row :: rows' =>
      match ins d row with
      | Some d' => insert_rows ins rows' d'
      | None => None
      end
  end.

Definition notification_columns : list string :=
  ["id"; "notification_type_id"; "user_id"; "subject"; "seen"; "deleted";
   "time_created"; "incoming_json"; "outgoing_json"].

Definition apply_insert (st : Statement) (d : DestDB) : option DestDB :=
  if String.eqb (st_into st) "users" then
    if bool_decide (st_columns st = ["username"])
    then insert_rows insert_user (st_rows st) d else None
  else if String.eqb (st_into st) "notification_types" then
    if bool_decide (st_columns st = ["name"])
    then insert_rows insert_notification_type (st_rows st) d else None
  else if String.eqb (st_into st) "notifications" then
    if bool_decide (st_columns st = notification_columns)
    then insert_rows insert_notification (st_rows st) d else None
  else None.

Definition Exec (st : Statement) : M unit := λ w,
  let w1 := set_issued (issued w ++ [st]) w in
  match db_call w1 with
  | (Ok _, w2) =>
      match apply_insert st (dest w2) with
      | Some d => (Ok tt, set_dest d w2)
      | None => (Err (driverError "pq: the statement does not fit the table"), w2)
      end
  | (Err e, w2) => (Err e, w2)
  | (Panic msg, w2) => (Panic msg, w2)
  end.

(** [rows.Next()]: one more round trip to the database.  It returns true
    when the result has a next row and the driver delivers it; it returns
    false at the end of the rows, and also when the driver fails, a failure
    it keeps for [rows.Err()]. *)
Definition rows_Next {A : Type} (rows : list A) : M bool := λ w,
  (Ok match rows with
      | [] => false
      | _ :: _ => bool_decide (driver_says w = None)
      end, after_call w).

(** [for rows.Next() { ... rows.Scan(...) ... }] with the variables [s] the
    body assigns.  The loop ends when [rows.Next()] returns false; no loop of
    [migration.go] is followed by a look at [rows.Err()], so a stream that
    the driver breaks ends the loop as the end of the rows does.  [Scan]
    copies the columns of the row into strings. *)
Fixpoint for_rows {A St : Type} (body : A → St → M St) (rows : list A) (s : St)
  : M St :=
  match rows with
  | [] => rows_Next rows ;; mret s
  | row :: rows' =>
      rows_Next rows ≫= λ more : bool,
      if more then s' ← body row s; for_rows body rows' s' else mret s
  end.

(** ** [migration.go] *)

(** validateDestinationUsersTable verifies that the users table is empty in
    the destination database. *)
Definition validateDestinationUsersTable : M unit :=
  let wrapMsg := "unable to verify that the destination users table is empty" in
  userCount ← wrapping wrapMsg (QueryRow_count Users);
  if (userCount >? 0)%Z
  then fail (errorString "the destination users table is not empty")
  else mret tt.

(** migrateUsers migrates users to the destination database. *)
Definition migrateUsers : M unit :=
  let wrapMsg := "user migration failed" in
  wrapping wrapMsg validateDestinationUsersTable ;;
  sourceRows ← wrapping wrapMsg Query_usernames;
  let builder := Columns ["username"] (Insert "users") in
  builder ← for_rows (λ username builder, mret (Values [VText username] builder))
              sourceRows builder;
  statement ← wrapping wrapMsg (pure (ToSql builder));
  wrapping wrapMsg (Exec statement) ;;
  mret tt.

(** validateDestinationNotificationTypesTable verifies that the
    notification_types table in the destination database is empty. *)
Definition validateDestinationNotificationTypesTable : M unit :=
  let wrapMsg := "unable to validate the destination notification_types table" in
  notificationTypeCount ← wrapping wrapMsg (QueryRow_count NotificationTypes);
  if (notificationTypeCount >? 0)%Z
  then fail (errorString "the destination notification_types table is not empty")
  else mret tt.

(** migrateNotificationTypes migrates existing notification types to the
    destination database. *)
Definition migrateNotificationTypes : M unit :=
  let wrapMsg := "notification type migration failed" in
  wrapping wrapMsg validateDestinationNotificationTypesTable ;;
  sourceRows ← wrapping wrapMsg Query_notification_types;
  let builder := Columns ["name"] (Insert "notification_types") in
  builder ← for_rows (λ notificationType builder,
                        mret (Values [VText notificationType] builder))
              sourceRows builder;
  statement ← wrapping wrapMsg (pure (ToSql builder));
  wrapping wrapMsg (Exec statement) ;;
  mret tt.

(** validateDestinationNotificationsTable verifies that the notifications
    table in the destination database is empty. *)
Definition validateDestinationNotificationsTable : M unit :=
  let wrapMsg := "unable to validate the destination notifications table" in
  notificationCount ← wrapping wrapMsg (QueryRow_count Notifications);
  if (notificationCount >? 0)%Z
  then fail (errorString "the destination notifictions table is not empty")
  else mret tt.

(** [m[k]] for a [map[string]string]: the empty string when [k] is not a key. *)
Definition index (m : gmap string string) (k : string) : string :=
  default "" (m !! k).

(** getNotificationTypeIDMap returns a map from notification type name to ID. *)
Definition getNotificationTypeIDMap : M (gmap string string) :=
  let wrapMsg := "unable to load the notification type ID map" in
  rows ← wrapping wrapMsg Query_notification_type_ids;
  for_rows (λ row result, mret (<[row.2 := row.1]> result)) rows ∅.

(** getUserIDMap returns a map from username to internal user ID. *)
Definition getUserIDMap : M (gmap string string) :=
  let wrapMsg := "unable to laod the user ID map" in
  rows ← wrapping wrapMsg Query_user_ids;
  for_rows (λ row result, mret (<[row.2 := row.1]> result)) rows ∅.

Section Migration.

Variable float64 : Type.
Variable ParseFloat : string → option float64.
Variable FormatFloat : float64 → string.

(** The dynamic type the panic of a failed type assertion names. *)
Definition dynamic_type (v : option (json float64)) : string :=
  match v with
  | None | Some JNull => "nil"
  | Some (JBool _) => "bool"
  | Some (JNumber _) => "float64"
  | Some (JString _) => "string"
  | Some (JArray _) => "[]interface {}"
  | Some (JObject _) => mapType
  end.

(** [outgoing["message"].(map[string]interface{})["id"] = id].  Reading a
    nil map or a missing key gives nil; the type assertion panics unless the
    entry is an object; the object is the one [outgoing] holds, so the
    assignment shows in [outgoing]. *)
Definition set_message_id (id : string)
    (outgoing : option (list (string * json float64)))
  : M (option (list (string * json float64))) :=
  match outgoing ≫= obj_get "message" with
  | Some (JObject inner) =>
      mret (obj_set "message" (JObject (obj_set "id" (JString id) inner))
              <$> outgoing)
  | entry =>
      panic ("interface conversion: interface {} is " +:+ dynamic_type entry
             +:+ ", not " +:+ mapType)
  end.

(** The body of the loop of migrateNotifications: one source notification. *)
Definition migrateNotification (base : InsertBuilder)
    (notificationTypeIDFor userIDFor : gmap string string)
    (row : NotificationRow) : M unit :=
  let wrapMsg := "notification migration failed" in
  let notificationTypeID := index notificationTypeIDFor (r_notificationType row) in
  let userID := index userIDFor (r_username row) in
  outgoing ← wrapping wrapMsg (pure (Unmarshal float64 ParseFloat (r_message row)));
  outgoing ← set_message_id (r_id row) outgoing;
  outgoingJSON ← wrapping wrapMsg (pure (Marshal float64 FormatFloat outgoing));
  let builder :=
    Values [VText (r_id row); VText notificationTypeID; VText userID;
            VText (r_subject row); VBool (r_seen row); VBool (r_deleted row);
            VTime (r_timeCreated row); VText (r_message row); VText outgoingJSON]
      base in
  statement ← wrapping wrapMsg (pure (ToSql builder));
  wrapping wrapMsg (Exec statement).

(** migrateNotifications migrates existing notifications to the destination
    database. *)
Definition migrateNotifications : M unit :=
  let wrapMsg := "notification migration failed" in
  wrapping wrapMsg validateDestinationNotificationsTable ;;
  notificationTypeIDFor ← wrapping wrapMsg getNotificationTypeIDMap;
  userIDFor ← wrapping wrapMsg getUserIDMap;
  sourceRows ← wrapping wrapMsg Query_notifications;
  let base := Columns notification_columns (Insert "notifications") in
  for_rows (λ row _, migrateNotification base notificationTypeIDFor userIDFor row)
    sourceRows tt.

(** runMigration performs the actual database migration. *)
Definition runMigration : M unit :=
  let wrapMsg := "database migration failed" in
  Println "Migrating users..." ;;
  wrapping wrapMsg migrateUsers ;;
  Println "Migrating notification types..." ;;
  wrapping wrapMsg migrateNotificationTypes ;;
  Println "Migrating notifications..." ;;
  wrapping wrapMsg migrateNotifications ;;
  mret tt.


(** ** Sample databases *)

(** A payload written with apostrophes in place of the double quotes. *)
Fixpoint dq (s : string) : string :=
  match s with
  | EmptyString => EmptyString
  | String c s' => String (if Ascii.eqb c "'"%char then quote else c) (dq s')
  end.

Definition empty_dest : DestDB :=
  {| users := []; notification_types := []; notifications := [];
     generated := 0; new_id := λ n, "id-" +:+ pretty n |}.

Definition world (s : SourceDB) (d : DestDB) : World :=
  {| source := s; dest := d; faults := []; issued := []; stdout := [] |}.

Definition alice : SourceUser := {| su_id := "1"; su_username := "alice" |}.

Definition info_notification (message : string) : SourceNotification :=
  {| sn_uuid := "abc-123"; sn_type := "Info"; sn_user_id := "1";
     sn_subject := "hello"; sn_seen := false; sn_deleted := false;
     sn_date_created := 1000; sn_message := message |}.

Definition sample_source (message : string) : SourceDB :=
  {| source_users := [alice];
     source_notifications := [info_notification message] |}.

Definition hi_payload : string := dq "{'message':{'text':'hi'}}".

(** One user, one notification of type Info, an empty destination. *)
Definition sample_world : World := world (sample_source hi_payload) empty_dest.

Definition empty_source : SourceDB :=
  {| source_users := []; source_notifications := [] |}.


(** A second notification, later than the first, whose user_id is the id
    of no user. *)
Definition orphan_notification : SourceNotification :=
  {| sn_uuid := "def-456"; sn_type := "Warning"; sn_user_id := "2";
     sn_subject := "nobody"; sn_seen := true; sn_deleted := false;
     sn_date_created := 2000; sn_message := hi_payload |}.

Definition orphan_source : SourceDB :=
  {| source_users := [alice];
     source_notifications := [orphan_notification; info_notification hi_payload] |}.


(** A source whose later notification has a payload without message. *)
Definition second_broken_source : SourceDB :=
  {| source_users := [alice];
     source_notifications :=
       [{| sn_uuid := "def-456"; sn_type := "Warning"; sn_user_id := "1";
           sn_subject := "later"; sn_seen := true; sn_deleted := false;
           sn_date_created := 2000; sn_message := "{}" |};
        info_notification hi_payload] |}.

(** A source with two notifications of one user, the later one first in
    its table. *)
Definition two_source : SourceDB :=
  {| source_users := [alice];
     source_notifications :=
       [{| sn_uuid := "def-456"; sn_type := "Warning"; sn_user_id := "1";
           sn_subject := "later"; sn_seen := true; sn_deleted := false;
           sn_date_created := 2000; sn_message := hi_payload |};
        info_notification hi_payload] |}.


(** A destination with two users. *)
Definition two_users_dest : DestDB :=
  {| users := [{| du_id := "id-0"; du_username := "alice" |};
               {| du_id := "id-1"; du_username := "bob" |}];
     notification_types := [];
     notifications := [];
     generated := 2;
     new_id := λ n, "id-" +:+ pretty n |}.

(** The world in which the driver answers the coming calls with [fs]. *)
Definition failing (fs : list (option string)) (w : World) : World :=
  {| source := source w; dest := dest w; faults := fs; issued := issued w;
     stdout := stdout w |}.

(** The world in which the driver fails the call after the [n] coming
    ones, and no other. *)
Definition breaking (n : nat) (w : World) : World :=
  failing (replicate n None ++ [Some "unexpected EOF"]) w.

(** ** Vocabulary of the properties *)

(** The rows a loop gets from a stream of [rows] when [fs] are the driver's
    coming outcomes: those before the first [rows.Next()] that the driver fails. *)
Fixpoint delivered {A : Type} (fs : list (option string)) (rows : list A) : list A :=
  match rows with
  | [] => []
  | row :: rows' =>
      match fs with
      | Some _ :: _ => []
      | None :: fs' => row :: delivered fs' rows'
      | [] => row :: delivered [] rows'
      end
  end.

(** The map the loop of a dictionary load builds from the rows it gets:
    [result[name] = id], row after row. *)
Definition fill_map (rows : list (string * string)) : gmap string string :=
  foldl (λ result row, <[row.2 := row.1]> result) ∅ rows.

(** The three validation functions are one check, on three tables. *)
Definition validate (t : table) (wrapMsg notEmpty : string) : M unit :=
  n ← wrapping wrapMsg (QueryRow_count t);
  if (n >? 0)%Z then fail (errorString notEmpty) else mret tt.

(** The insert of one column that carries [names], a row each. *)
Definition names_statement (tbl column : string) (names : list string) : Statement :=
  {| st_into := tbl; st_columns := [column];
     st_rows := (λ name, [VText name]) <$> names |}.

(** The user stage and the notification-type stage are one computation, on
    two tables. *)
Definition bulk_stage (wrapMsg : string) (validation : M unit)
    (query : M (list string)) (tbl column : string) : M unit :=
  wrapping wrapMsg validation ;;
  sourceRows ← wrapping wrapMsg query;
  let builder := Columns [column] (Insert tbl) in
  builder ← for_rows (λ name builder, mret (Values [VText name] builder))
              sourceRows builder;
  statement ← wrapping wrapMsg (pure (ToSql builder));
  wrapping wrapMsg (Exec statement) ;;
  mret tt.

(** The destination with one more row in one of its tables. *)
Definition add_user (d : DestDB) (username : string) : DestDB :=
  {| users := users d ++
       [{| du_id := new_id d (generated d); du_username := username |}];
     notification_types := notification_types d;
     notifications := notifications d;
     generated := S (generated d);
     new_id := new_id d |}.

Definition add_notification_type (d : DestDB) (name : string) : DestDB :=
  {| users := users d;
     notification_types := notification_types d ++
       [{| nt_id := new_id d (generated d); nt_name := name |}];
     notifications := notifications d;
     generated := S (generated d);
     new_id := new_id d |}.

Definition add_notification (d : DestDB) (n : DestNotification) : DestDB :=
  {| users := users d;
     notification_types := notification_types d;
     notifications := notifications d ++ [n];
     generated := generated d;
     new_id := new_id d |}.

Definition usernames (s : SourceDB) : list string :=
  su_username <$> source_users s.

Definition users_statement (s : SourceDB) : Statement :=
  names_statement "users" "username" (usernames s).

Definition notification_types_statement (s : SourceDB) : Statement :=
  names_statement "notification_types" "name" (distinct_lower_types s).

(** The usernames and the type names the first two stages get to read: the
    count query and the query take the first two outcomes of the driver. *)
Definition read_usernames (w : World) : list string :=
  delivered (drop 2 (faults w)) (usernames (source w)).

Definition read_types (w : World) : list string :=
  delivered (drop 2 (faults w)) (distinct_lower_types (source w)).

Definition users_not_empty : string := "the destination users table is not empty".
Definition notification_types_not_empty : string :=
  "the destination notification_types table is not empty".

Definition notification_failed : string := "notification migration failed".

(** The object [migrateNotification] marshals for a payload that decodes to
    an object with an object under the key message. *)
Definition with_message_id (id : string) (top inner : list (string * json float64))
  : list (string * json float64) :=
  obj_set "message" (JObject (obj_set "id" (JString id) inner)) top.

Definition outgoing_object (row : NotificationRow)
  : option (list (string * json float64)) :=
  match Unmarshal float64 ParseFloat (r_message row) with
  | Ok (Some top) =>
      match obj_get "message" top with
      | Some (JObject inner) => Some (with_message_id (r_id row) top inner)
      | _ => None
      end
  | _ => None
  end.

Definition outgoing_text (row : NotificationRow) : string :=
  match outgoing_object row with
  | Some o => encode_value float64 FormatFloat (JObject o)
  | None => ""
  end.

Definition row_values (tmap umap : gmap string string) (row : NotificationRow)
  : list value :=
  [VText (r_id row); VText (index tmap (r_notificationType row));
   VText (index umap (r_username row)); VText (r_subject row);
   VBool (r_seen row); VBool (r_deleted row); VTime (r_timeCreated row);
   VText (r_message row); VText (outgoing_text row)].

Definition row_statement (tmap umap : gmap string string) (row : NotificationRow)
  : Statement :=
  {| st_into := "notifications"; st_columns := notification_columns;
     st_rows := [row_values tmap umap row] |}.

Definition row_record (tmap umap : gmap string string) (row : NotificationRow)
  : DestNotification :=
  {| dn_id := r_id row;
     dn_notification_type_id := index tmap (r_notificationType row);
     dn_user_id := index umap (r_username row);
     dn_subject := r_subject row;
     dn_seen := r_seen row;
     dn_deleted := r_deleted row;
     dn_time_created := r_timeCreated row;
     dn_incoming_json := r_message row;
     dn_outgoing_json := outgoing_text row |}.

Definition notifications_base : InsertBuilder :=
  Columns notification_columns (Insert "notifications").

Definition notifications_not_empty : string :=
  "the destination notifictions table is not empty".

(** The dictionaries made of rows of the two tables. *)
Definition type_dictionary (rows : list DestNotificationType) : gmap string string :=
  fill_map ((λ t, (nt_id t, nt_name t)) <$> rows).

Definition user_dictionary (rows : list DestUser) : gmap string string :=
  fill_map ((λ u, (du_id u, du_username u)) <$> rows).

(** The two dictionaries [migrateNotifications] loads from a destination
    when it gets every row of the two tables. *)
Definition type_ids (d : DestDB) : gmap string string :=
  type_dictionary (notification_types d).

Definition user_ids (d : DestDB) : gmap string string :=
  user_dictionary (users d).

(** A source notification the join keeps: its user_id is the id of a user. *)
Definition has_user (s : SourceDB) (n : SourceNotification) : Prop :=
  sn_user_id n ∈ su_id <$> source_users s.

#[export] Instance has_user_dec s n : Decision (has_user s n).
Proof. unfold has_user. apply _. Defined.

Definition migration_failed : string := "database migration failed".

(** The world once [fmt.Println] has written a progress line. *)
Definition printed (line : string) (w : World) : World :=
  set_stdout (stdout w ++ [line]) w.


(** The creation times the rows of a list of statements carry, in the
    order of the statements (time_created is the seventh column). *)
Definition created_time (row : list value) : list Z :=
  match row !! 6 with
  | Some (VTime t) => [t]
  | _ => []
  end.

Definition creation_times (sts : list Statement) : list Z :=
  st ← sts; row ← st_rows st; created_time row.


Definition no_values : string :=
  "insert statements must have at least one set of values or select clause".

(** ** [main.go] *)

(** commandLineOptionValues represents the option values that are accepted
    by this utility. *)
Record commandLineOptionValues : Type := {
  Source : string;
  Dest : string;
}.

(** What [getoptions] has made of [os.Args[1:]] once [opt.Parse] returns:
    whether help was called, the error of the parse, the values stored for
    the two options (the empty string for one that was not given) and the
    two help texts. *)
Record CommandLine : Type := {
  help_called : bool;
  parse_error : option error;
  source_option : string;
  dest_option : string;
  help_text : string;
  synopsis_text : string;
}.

(** The calls [main] makes on the two connections and the two
    transactions. *)
Inductive lifecycle : Type :=
| Connect (driverName databaseURI : string)
| Begin_source
| Begin_dest
| Commit_dest
| Rollback_dest
| Rollback_source
| Close_dest
| Close_source.

(** The process: the world of the two transactions, the destination as
    committed (what a transaction begins from and what its commit
    replaces), the text written to standard error, the calls made so far
    and the deferred calls, the last deferred first. *)
Record Process : Type := {
  proc_world : World;
  committed : DestDB;
  stderr : list string;
  calls : list lifecycle;
  deferred : list lifecycle;
}.

(** A step of [main] goes on with a value, ends the process through
    [os.Exit], or panics. *)
Inductive step (A : Type) : Type :=
| Next (a : A)
| Exit (code : Z)
| Panicking (msg : string).
Arguments Next {A} a.
Arguments Exit {A} code.
Arguments Panicking {A} msg.

Definition P (A : Type) : Type := Process → step A * Process.

#[export] Instance P_ret : MRet P := λ A a p, (Next a, p).

#[export] Instance P_bind : MBind P := λ A B k m p,
  match m p with
  | (Next a, p') => k a p'
  | (Exit code, p') => (Exit code, p')
  | (Panicking msg, p') => (Panicking msg, p')
  end.

Definition newline : string := String "010"%char "".

(** [fmt.Fprintf(os.Stderr, ...)] *)
Definition Fprintf_stderr (text : string) : P unit := λ p,
  (Next tt, {| proc_world := proc_world p; committed := committed p;
               stderr := stderr p ++ [text]; calls := calls p;
               deferred := deferred p |}).

(** [os.Exit(code)]: the process ends there; no deferred call runs. *)
Definition os_Exit {A : Type} (code : Z) : P A := λ p, (Exit code, p).

(** [defer c] *)
Definition defer (c : lifecycle) : P unit := λ p,
  (Next tt, {| proc_world := proc_world p; committed := committed p;
               stderr := stderr p; calls := calls p;
               deferred := c :: deferred p |}).

Definition set_proc_world (w : World) (p : Process) : Process :=
  {| proc_world := w; committed := committed p; stderr := stderr p;
     calls := calls p; deferred := deferred p |}.

(** A call on a connection or a transaction: one round trip, whose error,
    if any, is the driver's. *)
Definition lifecycle_call (c : lifecycle) : P (option error) := λ p,
  let p1 := {| proc_world := after_call (proc_world p); committed := committed p;
               stderr := stderr p; calls := calls p ++ [c];
               deferred := deferred p |} in
  match driver_says (proc_world p) with
  | Some msg => (Next (Some (driverError msg)), p1)
  | None => (Next None, p1)
  end.

(** The new transaction sees the destination as committed. *)
Definition see_committed : P unit := λ p,
  (Next tt, set_proc_world (set_dest (committed p) (proc_world p)) p).

(** What the transaction has done becomes the committed destination. *)
Definition make_committed : P unit := λ p,
  (Next tt, {| proc_world := proc_world p; committed := dest (proc_world p);
               stderr := stderr p; calls := calls p; deferred := deferred p |}).

(** [destDB.Begin()] *)
Definition Begin_destTx : P (option error) :=
  err ← lifecycle_call Begin_dest;
  match err with
  | Some err => mret (Some err)
  | None => see_committed ;; mret None
  end.

(** [destTx.Commit()]: the commit takes effect unless the driver reports a
    failure. *)
Definition Commit_destTx : P (option error) :=
  err ← lifecycle_call Commit_dest;
  match err with
  | Some err => mret (Some err)
  | None => make_committed ;; mret None
  end.

(** A function of [migration.go] called from [main]: its error is a value,
    its panic unwinds [main]. *)
Definition calling (m : M unit) : P (option error) := λ p,
  match m (proc_world p) with
  | (Ok _, w) => (Next None, set_proc_world w p)
  | (Err e, w) => (Next (Some e), set_proc_world w p)
  | (Panic msg, w) => (Panicking msg, set_proc_world w p)
  end.

(** [if err != nil { fmt.Fprintf(os.Stderr, "<what>%s\n", err.Error());
    os.Exit(1) }] *)
Definition exit_on_error (what : string) (err : option error) : P unit :=
  match err with
  | Some err => Fprintf_stderr (what +:+ Error err +:+ newline) ;; os_Exit 1
  | None => mret tt
  end.

(** parseCommandLine parses the command-line and returns a structure
    containging the option values specified on the command line.  (The two
    help texts are passed to [Fprintf] as its format: they are taken to
    hold no formatting verb.) *)
Definition parseCommandLine (cl : CommandLine) : P commandLineOptionValues :=
  (if help_called cl then Fprintf_stderr (help_text cl) ;; os_Exit 0 else mret tt) ;;
  match parse_error cl with
  | Some err =>
      Fprintf_stderr ("Error: " +:+ Error err +:+ newline +:+ newline) ;;
      Fprintf_stderr (synopsis_text cl)
  | None => mret tt
  end ;;
  mret {| Source := source_option cl; Dest := dest_option cl |}.

(** initDatabase establishes a database connection and verifies that the
    database can be reached.  ([dbutil.NewDefaultConnector("1m")] has a
    duration that parses, and returns no error.) *)
Definition initDatabase (driverName databaseURI : string) : P (option error) :=
  let wrapMsg := "unable to initialize the database" in
  err ← lifecycle_call (Connect driverName databaseURI);
  match err with
  | Some err => mret (Some (Wrap err wrapMsg))
  | None => mret None
  end.

Definition main (cl : CommandLine) : P unit :=
  optionValues ← parseCommandLine cl;
  err ← initDatabase "postgres" (Source optionValues);
  exit_on_error "source database: " err ;;
  defer Close_source ;;
  err ← initDatabase "postgres" (Dest optionValues);
  exit_on_error "destination database: " err ;;
  defer Close_dest ;;
  err ← lifecycle_call Begin_source;
  exit_on_error "source database: " err ;;
  defer Rollback_source ;;
  err ← Begin_destTx;
  exit_on_error "destination database: " err ;;
  defer Rollback_dest ;;
  err ← calling runMigration;
  exit_on_error "" err ;;
  err ← Commit_destTx;
  exit_on_error "destination database commit failed: " err.

(** The deferred calls run, the last deferred first; what they return is
    ignored. *)
Definition run_deferred (p : Process) : Process :=
  {| proc_world := proc_world p; committed := committed p; stderr := stderr p;
     calls := calls p ++ deferred p; deferred := [] |}.

(** The process from its start to its exit code: [main] returns (the
    deferred calls run, exit code 0), ends in [os.Exit], or panics (the
    deferred calls run, the runtime reports the panic and exits with 2; of
    its report the first line is kept, the goroutine trace is not). *)
Definition run_main (cl : CommandLine) (p : Process) : Z * Process :=
  match main cl p with
  | (Next _, p') => (0%Z, run_deferred p')
  | (Exit code, p') => (code, p')
  | (Panicking msg, p') =>
      let p'' := run_deferred p' in
      (2%Z, {| proc_world := proc_world p''; committed := committed p'';
               stderr := stderr p'' ++ ["panic: " +:+ msg +:+ newline];
               calls := calls p''; deferred := deferred p'' |})
  end.

(** The lines a usage error writes. *)
Definition usage_lines (cl : CommandLine) : list string :=
  match parse_error cl with
  | Some err => ["Error: " +:+ Error err +:+ newline +:+ newline; synopsis_text cl]
  | None => []
  end.

(** The calls that set the two transactions up, and the four deferred
    calls in the order in which they run. *)
Definition setup_calls (cl : CommandLine) : list lifecycle :=
  [Connect "postgres" (source_option cl); Connect "postgres" (dest_option cl);
   Begin_source; Begin_dest].

Definition cleanup_calls : list lifecycle :=
  [Rollback_dest; Rollback_source; Close_dest; Close_source].

(** The two connections and the two transactions are established: none of
    the first four calls fails. *)
Definition established (p : Process) : Prop :=
  driver_says (proc_world p) = None ∧
  driver_says (after_call (proc_world p)) = None ∧
  driver_says (after_call (after_call (proc_world p))) = None ∧
  driver_says (after_call (after_call (after_call (proc_world p)))) = None.

(** The world [runMigration] is called in. *)
Definition migration_start (p : Process) : World :=
  set_dest (committed p)
    (after_call (after_call (after_call (after_call (proc_world p))))).

(** The first of the four set-up calls that fails, by its rank, with the
    line [main] then writes. *)
Definition setup_failure (p : Process) : option (nat * string) :=
  let w := proc_world p in
  match driver_says w with
  | Some msg =>
      Some (1, "source database: unable to initialize the database: "
               +:+ msg +:+ newline)
  | None =>
      match driver_says (after_call w) with
      | Some msg =>
          Some (2, "destination database: unable to initialize the database: "
                   +:+ msg +:+ newline)
      | None =>
          match driver_says (after_call (after_call w)) with
          | Some msg => Some (3, "source database: " +:+ msg +:+ newline)
          | None =>
              match driver_says (after_call (after_call (after_call w))) with
              | Some msg => Some (4, "destination database: " +:+ msg +:+ newline)
              | None => None
              end
          end
      end
  end.

(** [m] is the dictionary of the rows [rows]: its keys are their names, and
    a name stands for the identity of the last row that has it. *)
Definition loaded_from {A : Type} (fid fname : A → string) (rows : list A)
    (m : gmap string string) : Prop :=
  (∀ k, is_Some (m !! k) ↔ k ∈ fname <$> rows) ∧
  (∀ l1 x l2, rows = l1 ++ x :: l2 → fname x ∉ fname <$> l2 →
              m !! fname x = Some (fid x)).

(** The destination once the user stage and the notification-type stage
    have stored their rows. *)
Definition staged_dest (w : World) : DestDB :=
  foldl add_notification_type
    (foldl add_user (dest w) (usernames (source w)))
    (distinct_lower_types (source w)).

(** The statements of a whole run, in the order in which they are issued. *)
Definition planned_statements (w : World) : list Statement :=
  users_statement (source w) :: notification_types_statement (source w) ::
  (row_statement (type_ids (staged_dest w)) (user_ids (staged_dest w))
     <$> notification_query (source w)).

Definition progress_lines : list string :=
  ["Migrating users..."; "Migrating notification types..."; "Migrating notifications..."].

(** The world a run leaves when every statement of its plan is applied. *)
Definition migrated (w : World) : World :=
  {| source := source w;
     dest := foldl add_notification (staged_dest w)
               (row_record (type_ids (staged_dest w)) (user_ids (staged_dest w))
                  <$> notification_query (source w));
     faults := [];
     issued := issued w ++ planned_statements w;
     stdout := stdout w ++ progress_lines |}.

(** The messages with which the three stages wrap their errors. *)
Definition stage_messages : list string :=
  ["user migration failed"; "notification type migration failed";
   "notification migration failed"].

(** ** Sample processes *)

(** A process at its start, with the destination of [w] as the committed
    one. *)
Definition process (w : World) : Process :=
  {| proc_world := w; committed := dest w; stderr := []; calls := [];
     deferred := [] |}.

Definition sample_command_line : CommandLine :=
  {| help_called := false; parse_error := None;
     source_option := "postgres://old"; dest_option := "postgres://new";
     help_text := "help"; synopsis_text := "synopsis" |}.

(** The command line without its option source. *)
Definition usage_error_command_line : CommandLine :=
  {| help_called := false;
     parse_error := Some (errorString "Missing required option 'source'!");
     source_option := ""; dest_option := "postgres://new";
     help_text := "help"; synopsis_text := "synopsis" |}.

(** * Properties *)

#[local] Set Warnings "-clear-no-such-hyp".

(** ** The decoder has fuel enough *)

Lemma strip_prefix_length p s r :
  strip_prefix p s = Some r →
  String.length s = (String.length p + String.length r)%nat.
Proof.
  revert s. induction p as [|a p IH]; intros s H; simpl in *; [by simplify_eq|].
  destruct s as [|b s]; [done|]. destruct (Ascii.eqb a b); [|done].
  simpl. f_equal. by apply IH.
Qed.

Lemma scan_number_length s :
  (String.length (scan_number s).2 ≤ String.length s)%nat.
Proof.
  induction s as [|c s IH]; simpl; [done|].
  destruct (is_number_char c); simpl; [|done].
  destruct (scan_number s) as [lit r]. simpl in *. lia.
Qed.

Lemma prepend_Some p x str r :
  prepend p x = Some (str, r) → ∃ str', x = Some (str', r).
Proof. destruct x as [[str' r']|]; simpl; intros; simplify_eq. eauto. Qed.

Ltac scan_rest IH :=
  match goal with
  | H : prepend _ (scan_string _) = Some _ |- _ =>
      apply prepend_Some in H as [? H]; apply IH in H;
      cbn [String.length] in *; lia
  end.

Lemma scan_string_length n s str r :
  (String.length s ≤ n)%nat → scan_string s = Some (str, r) →
  (String.length r < String.length s)%nat.
Proof.
  revert s str r. induction n as [|n IH]; intros s str r Hn H.
  { destruct s; [done|cbn [String.length] in Hn; lia]. }
  destruct s as [|c rest]; [done|]. cbn [String.length] in Hn.
  cbn [scan_string] in H.
  destruct (Ascii.eqb c quote).
  { injection H as _ ->. cbn [String.length]. lia. }
  destruct (Ascii.eqb c backslash); [|destruct (_ <? _)%nat; [done|scan_rest IH]].
  destruct rest as [|e rest1]; [done|].
  destruct (Ascii.eqb e "u"%char); [|destruct (unescape e); [scan_rest IH|done]].
  destruct rest1 as [|h1 [|h2 [|h3 [|h4 rest5]]]]; try done.
  destruct (hex4 h1 h2 h3 h4) as [rr|]; [|done].
  destruct (isSurrogate rr); [|scan_rest IH].
  destruct rest5 as [|b1 [|b2 [|l1 [|l2 [|l3 [|l4 rest11]]]]]]; try scan_rest IH.
  destruct (if Ascii.eqb b1 backslash && Ascii.eqb b2 "u"%char
            then hex4 l1 l2 l3 l4 else None) as [rr1|]; [|scan_rest IH].
  destruct (_ =? _)%N; scan_rest IH.
Qed.

Lemma number_start c :
  is_digit c || Ascii.eqb c "-"%char = true → is_number_char c = true.
Proof. unfold is_number_char. by intros ->. Qed.

(** The scanner never stops for want of fuel. *)
Lemma lex_fuel n m s :
  (String.length s < n)%nat → (String.length s < m)%nat → lex n s = lex m s.
Proof.
  revert m s. induction n as [|n IH]; intros [|m] s Hn Hm; try lia.
  destruct s as [|c rest]; [done|]. cbn [String.length] in Hn, Hm.
  assert (∀ r, (String.length r ≤ String.length rest)%nat → lex n r = lex m r)
    as IHr by (intros; apply IH; lia).
  cbn [lex]. cbv zeta.
  destruct (is_space c); [by apply IHr|].
  repeat (destruct (Ascii.eqb c _); [by rewrite IHr by lia|]).
  destruct (Ascii.eqb c quote).
  { destruct (scan_string rest) as [[str r]|] eqn:Hs; [|done].
    apply (scan_string_length _ _ _ _ (le_n _)) in Hs. by rewrite IHr by lia. }
  repeat (destruct (Ascii.eqb c _);
    [destruct (strip_prefix _ _) as [r|] eqn:Hp; [|done];
     apply strip_prefix_length in Hp; cbn [String.length] in Hp;
     by rewrite IHr by lia|]).
  destruct (is_digit c || Ascii.eqb c "-"%char) eqn:Hnum; [|done].
  cbn [scan_number]. rewrite (number_start _ Hnum).
  pose proof (scan_number_length rest) as Hlen.
  destruct (scan_number rest) as [lit r]. cbn [snd] in Hlen.
  destruct (valid_number _); [|done]. by rewrite IHr.
Qed.

Ltac use_rest :=
  repeat match goal with
  | IH : ∀ ts v r, _ = Some (v, r) → _, H : _ = Some (_, _) |- _ =>
      apply IH in H
  end; simpl in *; lia.

Lemma parse_rest n :
  (∀ ts v r, parse_value n ts = Some (v, r) → (length r < length ts)%nat) ∧
  (∀ ts vs r, parse_elements n ts = Some (vs, r) → (length r < length ts)%nat) ∧
  (∀ ts ms r, parse_members n ts = Some (ms, r) → (length r < length ts)%nat).
Proof.
  induction n as [|n (IHv & IHe & IHm)]; [done|].
  split; [|split]; intros ts x r H; simpl in H;
    repeat (case_match; simplify_eq; try done); use_rest.
Qed.

(** Nor does the parser: fuel above twice the number of tokens is enough. *)
Lemma parse_fuel n :
  (∀ m ts, (2 * length ts < n)%nat → (2 * length ts < m)%nat →
           parse_value n ts = parse_value m ts) ∧
  (∀ m ts, (2 * length ts + 1 < n)%nat → (2 * length ts + 1 < m)%nat →
           parse_elements n ts = parse_elements m ts) ∧
  (∀ m ts, (2 * length ts + 1 < n)%nat → (2 * length ts + 1 < m)%nat →
           parse_members n ts = parse_members m ts).
Proof.
  induction n as [|n (IHv & IHe & IHm)]; [repeat split; intros; lia|].
  destruct (parse_rest n) as (Rv & Re & Rm).
  split; [|split]; intros [|m] ts Hn Hm; try lia.
  - destruct ts as [|t ts]; [done|]. simpl in Hn, Hm.
    destruct t; try done.
    + destruct ts as [|t ts]; simpl; [by rewrite (IHm m) by (simpl; lia)|].
      destruct t; try done; by rewrite (IHm m) by (simpl in *; lia).
    + destruct ts as [|t ts]; simpl; [by rewrite (IHe m) by (simpl; lia)|].
      destruct t; try done; by rewrite (IHe m) by (simpl in *; lia).
  - simpl. rewrite (IHv m) by lia.
    destruct (parse_value m ts) as [[v [|t r]]|] eqn:Hv; try done.
    destruct t; try done.
    rewrite <- (IHv m) in Hv by lia. apply Rv in Hv. simpl in Hv.
    by rewrite (IHe m) by lia.
  - simpl. destruct ts as [|t ts]; [done|]. destruct t; try done.
    destruct ts as [|t ts]; [done|]. destruct t; try done. simpl in Hn, Hm.
    rewrite (IHv m) by lia.
    destruct (parse_value m ts) as [[v [|t r]]|] eqn:Hv; try done.
    destruct t; try done.
    rewrite <- (IHv m) in Hv by lia. apply Rv in Hv. simpl in Hv.
    by rewrite (IHm m) by lia.
Qed.

Lemma parse_any_fuel data n m :
  (String.length data < n)%nat →
  (∀ ts, lex n data = Some ts → (2 * length ts < m)%nat) →
  match lex n data with
  | Some ts =>
      match parse_value m ts with
      | Some (v, []) => Some v
      | _ => None
      end
  | None => None
  end = parse data.
Proof.
  intros Hn Hm. unfold parse.
  rewrite (lex_fuel (S (String.length data)) n data) by lia.
  destruct (lex n data) as [ts|] eqn:Hlex; [|done].
  destruct (parse_fuel m) as [Hv _]. rewrite (Hv (S (2 * length ts))); [done| |lia].
  by apply Hm.
Qed.

(** ** Running a call *)

Lemma bind_run {A B : Type} (m : M A) (k : A → M B) w r w' :
  (m ≫= k) w = (r, w') →
  (∃ a w1, m w = (Ok a, w1) ∧ k a w1 = (r, w')) ∨
  (∃ e, m w = (Err e, w') ∧ r = Err e) ∨
  (∃ msg, m w = (Panic msg, w') ∧ r = Panic msg).
Proof.
  unfold mbind, M_bind. destruct (m w) as [[a|e|msg] w1]; intros H.
  - left. eauto.
  - right; left. simplify_eq. eauto.
  - right; right. simplify_eq. eauto.
Qed.

Lemma wrapping_run {A : Type} (wrapMsg : string) (m : M A) w r w' :
  wrapping wrapMsg m w = (r, w') →
  ∃ r0, m w = (r0, w') ∧
        r = match r0 with Err e => Err (Wrap e wrapMsg) | _ => r0 end.
Proof.
  unfold wrapping. destruct (m w) as [[a|e|msg] w1]; intros H; simplify_eq; eauto.
Qed.

Lemma query_run {A : Type} (f : World → A) w r w' :
  (db_call ;; reading f) w = (r, w') →
  w' = after_call w ∧
  match driver_says w with
  | Some msg => r = Err (driverError msg)
  | None => r = Ok (f (after_call w))
  end.
Proof.
  unfold mbind, M_bind, db_call, reading.
  destruct (driver_says w); intros H; by simplify_eq.
Qed.

Lemma validate_run t wrapMsg notEmpty w r w' :
  validate t wrapMsg notEmpty w = (r, w') →
  w' = after_call w ∧
  match driver_says w with
  | Some msg => r = Err (Wrap (driverError msg) wrapMsg)
  | None => if decide (row_count t (dest w) = 0) then r = Ok tt
            else r = Err (errorString notEmpty)
  end.
Proof.
  unfold validate. intros H.
  apply bind_run in H as [(n & w1 & H1 & H2)|[(e & H1 & ->)|(msg & H1 & ->)]];
    apply wrapping_run in H1 as (r0 & H1 & Hr);
    apply query_run in H1 as [-> H1];
    destruct (driver_says w); subst r0; simplify_eq; try done.
  split.
  { destruct (_ >? _)%Z; unfold fail, mret, M_ret in H2; by simplify_eq. }
  change (dest (after_call w)) with (dest w) in H2.
  destruct (decide _) as [Hn|Hn].
  - rewrite Hn in H2. simpl in H2. unfold mret, M_ret in H2. by simplify_eq.
  - destruct (Z.gtb_spec (Z.of_nat (row_count t (dest w))) 0); [|lia].
    unfold fail in H2. by simplify_eq.
Qed.

Lemma Exec_run st w r w' :
  Exec st w = (r, w') →
  let w1 := after_call (set_issued (issued w ++ [st]) w) in
  match driver_says w with
  | Some msg => r = Err (driverError msg) ∧ w' = w1
  | None =>
      match apply_insert st (dest w) with
      | Some d => r = Ok tt ∧ w' = set_dest d w1
      | None => (∃ msg, r = Err (driverError msg)) ∧ w' = w1
      end
  end.
Proof.
  unfold Exec, db_call. simpl.
  change (driver_says (set_issued (issued w ++ [st]) w)) with (driver_says w).
  destruct (driver_says w); [by intros; simplify_eq|].
  change (dest (after_call _)) with (dest w).
  destruct (apply_insert st (dest w)); intros; simplify_eq; eauto.
Qed.

(** ** Reading a stream *)

Lemma delivered_prefix {A : Type} fs (rows : list A) :
  delivered fs rows `prefix_of` rows.
Proof.
  revert fs. induction rows as [|row rows IH]; intros fs; [done|].
  destruct fs as [|[msg|] fs]; simpl; [|apply prefix_nil|]; by apply prefix_cons.
Qed.

Lemma delivered_nil {A : Type} (rows : list A) : delivered [] rows = rows.
Proof. induction rows as [|row rows IH]; [done|]. simpl. by rewrite IH. Qed.

Lemma delivered_fmap {A B : Type} (f : A → B) fs (rows : list A) :
  delivered fs (f <$> rows) = f <$> delivered fs rows.
Proof.
  revert fs. induction rows as [|row rows IH]; intros fs; [done|].
  destruct fs as [|[msg|] fs]; simpl; by rewrite ?IH.
Qed.

Lemma faults_after_call w : faults (after_call w) = drop 1 (faults w).
Proof. unfold after_call. simpl. by destruct (faults w). Qed.

(** A loop whose body only assigns its variables. *)
Lemma for_rows_pure {A St : Type} (f : St → A → St) (rows : list A) (s : St) w :
  for_rows (λ x s, mret (f s x)) rows s w =
  (Ok (foldl f s (delivered (faults w) rows)),
   set_faults (drop (S (length (delivered (faults w) rows))) (faults w)) w).
Proof.
  revert s w. induction rows as [|row rows IH]; intros s w.
  { simpl. unfold mbind, M_bind, rows_Next, mret, M_ret, after_call. simpl.
    by destruct (faults w). }
  cbn [for_rows]. unfold mbind at 1. unfold M_bind at 1. unfold rows_Next.
  unfold driver_says.
  destruct w as [src d [|[msg|] fs] iss out]; simpl.
  - unfold mbind at 1. unfold M_bind at 1. unfold mret at 1. unfold M_ret at 1.
    rewrite IH. simpl. done.
  - done.
  - unfold mbind at 1. unfold M_bind at 1. unfold mret at 1. unfold M_ret at 1.
    rewrite IH. simpl. done.
Qed.

(** ** The two bulk stages *)

Lemma foldl_Values {A : Type} (f : A → list value) (xs : list A) (b : InsertBuilder) :
  foldl (λ builder x, Values (f x) builder) b xs =
  {| into := into b; columns := columns b; values := values b ++ (f <$> xs) |}.
Proof.
  revert b. induction xs as [|x xs IH]; intros b; simpl.
  - rewrite app_nil_r. by destruct b.
  - rewrite IH. simpl. by rewrite <- app_assoc.
Qed.

Lemma ToSql_names tbl column names :
  String.eqb tbl "" = false →
  ToSql (foldl (λ builder name, Values [VText name] builder)
           (Columns [column] (Insert tbl)) names) =
  match names with
  | [] => Err (errorString
            "insert statements must have at least one set of values or select clause")
  | _ :: _ => Ok (names_statement tbl column names)
  end.
Proof.
  intros Htbl. rewrite foldl_Values. unfold ToSql. simpl. rewrite Htbl.
  by destruct names.
Qed.

Lemma drop_2_tail {A : Type} (l : list A) : tail (tail l) = drop 2 l.
Proof. by destruct l as [|? [|? ?]]. Qed.

Section BulkStage.

Context (wrapMsg validateMsg notEmpty tbl column : string) (t : table).
Context (rows : World → list string) (add : DestDB → string → DestDB).
Hypothesis tbl_named : String.eqb tbl "" = false.
Hypothesis rows_after_call : ∀ w, rows (after_call w) = rows w.
Hypothesis apply_insert_names : ∀ names d,
  apply_insert (names_statement tbl column names) d = Some (foldl add d names).

Lemma bulk_stage_run w :
  let got := delivered (drop 2 (faults w)) (rows w) in
  let stmt := names_statement tbl column got in
  match bulk_stage wrapMsg (validate t validateMsg notEmpty)
          (db_call ;; reading rows) tbl column w with
  | (Ok _, w') =>
      row_count t (dest w) = 0 ∧ got ≠ [] ∧
      dest w' = foldl add (dest w) got ∧
      issued w' = issued w ++ [stmt] ∧
      source w' = source w ∧ stdout w' = stdout w ∧
      (faults w = [] → faults w' = [])
  | (Err e, w') =>
      (∃ cause, e = Wrap cause wrapMsg) ∧
      dest w' = dest w ∧ source w' = source w ∧ stdout w' = stdout w ∧
      (issued w' = issued w ∨
       row_count t (dest w) = 0 ∧ got ≠ [] ∧ issued w' = issued w ++ [stmt]) ∧
      (row_count t (dest w) ≠ 0 → driver_says w = None →
       e = Wrap (errorString notEmpty) wrapMsg)
  | (Panic _, _) => False
  end.
Proof.
  intros got stmt. destruct (bulk_stage _ _ _ _ _ w) as [r w'] eqn:H.
  unfold bulk_stage in H.
  apply bind_run in H as [(? & w1 & H1 & H)|[(e & H1 & ->)|(msg & H1 & ->)]];
    apply wrapping_run in H1 as (r0 & H1 & Hr);
    apply validate_run in H1 as [-> H1].
  2:{ destruct r0; simplify_eq. split; [by eauto|]. repeat split; auto.
      intros Hn Hd. rewrite Hd in H1. by destruct (decide _); simplify_eq. }
  2:{ destruct r0; simplify_eq. destruct (driver_says w); [done|].
      by destruct (decide _). }
  assert (row_count t (dest w) = 0) as Hempty.
  { destruct r0; simplify_eq. destruct (driver_says w); [done|].
    by destruct (decide _). }
  clear H1 Hr r0.
  apply bind_run in H as [(names & w2 & H1 & H)|[(e & H1 & ->)|(msg & H1 & ->)]];
    apply wrapping_run in H1 as (r0 & H1 & Hr);
    apply query_run in H1 as [-> H1].
  2:{ destruct r0; simplify_eq. split; [by eauto|]. repeat split; auto. done. }
  2:{ destruct r0; simplify_eq. by destruct (driver_says _). }
  assert (names = rows w) as ->.
  { destruct r0; simplify_eq. destruct (driver_says _); simplify_eq.
    by rewrite !rows_after_call. }
  clear H1 Hr r0. cbv zeta in H.
  apply bind_run in H as [(b & w3 & H1 & H)|[(e & H1 & _)|(msg & H1 & _)]];
    rewrite (for_rows_pure (λ b name, Values [VText name] b)) in H1;
    [|done..].
  assert (delivered (faults (after_call (after_call w))) (rows w) = got) as Hgot.
  { unfold got, after_call. simpl. by rewrite drop_2_tail. }
  rewrite Hgot in H1. injection H1 as <- <-.
  rewrite ToSql_names in H by done.
  set (w3 := set_faults _ (after_call (after_call w))) in *.
  assert (faults w = [] → faults w3 = []) as Hfaults.
  { intros Hf. unfold w3. simpl. rewrite Hf. simpl. by destruct (length got). }
  assert (dest w3 = dest w ∧ issued w3 = issued w ∧ source w3 = source w ∧
          stdout w3 = stdout w) as (Hd3 & Hi3 & Hs3 & Ho3) by done.
  assert (stmt = names_statement tbl column got) as Hstmt by done.
  clearbody w3. clear Hgot. clearbody stmt got.
  apply bind_run in H as [(st & w4 & H1 & H)|[(e & H1 & ->)|(msg & H1 & ->)]];
    apply wrapping_run in H1 as (r0 & H1 & Hr); unfold pure in H1.
  2:{ injection H1 as <- <-. destruct got; [|done]. injection Hr as ->.
      split; [by eauto|]. repeat split; auto. done. }
  2:{ injection H1 as <- <-. by destruct got. }
  assert (got ≠ [] ∧ st = stmt ∧ w4 = w3) as (Hrows & -> & ->).
  { injection H1 as <- <-. rewrite Hstmt. destruct got; [done|].
    by injection Hr as <-. }
  clear H1 Hr r0.
  apply bind_run in H as [([] & w5 & H1 & H)|[(e & H1 & ->)|(msg & H1 & ->)]];
    apply wrapping_run in H1 as (r0 & H1 & Hr);
    apply Exec_run in H1; simpl in H1; rewrite ?Hd3, ?Hi3 in H1.
  - unfold mret, M_ret in H. injection H as <- <-.
    destruct (driver_says w3).
    { destruct H1 as [-> _]. done. }
    rewrite Hstmt, apply_insert_names in H1. destruct H1 as [_ ->].
    simpl. rewrite Hs3, Ho3, <- Hstmt. split_and!; try done.
    intros Hf. by rewrite (Hfaults Hf).
  - assert (w' = after_call (set_issued (issued w ++ [stmt]) w3) ∧
            ∃ e0, r0 = Err e0) as [-> [e0 ->]].
    { destruct (driver_says _); [destruct H1 as [-> ->]; by eauto|].
      destruct (apply_insert _ _); destruct H1 as [H1 ->];
        [by subst r0|destruct H1 as [? ->]; by eauto]. }
    injection Hr as ->. split; [by eauto|]. simpl. rewrite Hd3, Hs3, Ho3.
    repeat split; auto. intros Hn. done.
  - destruct (driver_says _); [destruct H1 as [-> _]; done|].
    destruct (apply_insert _ _); destruct H1 as [H1 _];
      [by subst r0|by destruct H1 as [? ->]].
Qed.

End BulkStage.

Lemma insert_users names d :
  apply_insert (names_statement "users" "username" names) d =
  Some (foldl add_user d names).
Proof.
  unfold apply_insert. simpl. revert d.
  induction names as [|x names IH]; intros d; simpl; [done|]. apply IH.
Qed.

Lemma insert_notification_types names d :
  apply_insert (names_statement "notification_types" "name" names) d =
  Some (foldl add_notification_type d names).
Proof.
  unfold apply_insert. simpl. revert d.
  induction names as [|x names IH]; intros d; simpl; [done|]. apply IH.
Qed.

Lemma migrateUsers_bulk_stage :
  migrateUsers =
  bulk_stage "user migration failed"
    (validate Users "unable to verify that the destination users table is empty"
       users_not_empty)
    (db_call ;; reading (λ w, usernames (source w))) "users" "username".
Proof. reflexivity. Qed.

Lemma migrateNotificationTypes_bulk_stage :
  migrateNotificationTypes =
  bulk_stage "notification type migration failed"
    (validate NotificationTypes
       "unable to validate the destination notification_types table"
       notification_types_not_empty)
    (db_call ;; reading (λ w, distinct_lower_types (source w)))
    "notification_types" "name".
Proof. reflexivity. Qed.

Lemma migrateUsers_run w :
  let got := read_usernames w in
  let stmt := names_statement "users" "username" got in
  match migrateUsers w with
  | (Ok _, w') =>
      users (dest w) = [] ∧ got ≠ [] ∧
      dest w' = foldl add_user (dest w) got ∧
      issued w' = issued w ++ [stmt] ∧
      source w' = source w ∧ stdout w' = stdout w ∧
      (faults w = [] → faults w' = [])
  | (Err e, w') =>
      (∃ cause, e = Wrap cause "user migration failed") ∧
      dest w' = dest w ∧ source w' = source w ∧ stdout w' = stdout w ∧
      (issued w' = issued w ∨
       users (dest w) = [] ∧ got ≠ [] ∧ issued w' = issued w ++ [stmt]) ∧
      (users (dest w) ≠ [] → driver_says w = None →
       e = Wrap (errorString users_not_empty) "user migration failed")
  | (Panic _, _) => False
  end.
Proof.
  pose proof (bulk_stage_run "user migration failed"
    "unable to verify that the destination users table is empty"
    users_not_empty "users" "username" Users (λ w, usernames (source w)) add_user
    eq_refl (λ _, eq_refl) insert_users w) as H.
  cbv zeta in *. rewrite <- migrateUsers_bulk_stage in H.
  change (delivered _ (usernames (source w))) with (read_usernames w) in H.
  destruct (migrateUsers w) as [[[]|e|msg] w']; [| |done].
  - destruct H as (H0 & H). split; [|done]. by apply length_zero_iff_nil.
  - destruct H as (H0 & H1 & H2 & H3 & H4 & H5). repeat split; try done.
    + destruct H4 as [H4|(H4 & H6)]; [by left|right].
      split; [|done]. by apply length_zero_iff_nil.
    + intros Hne. apply H5. simpl. by destruct (users (dest w)).
Qed.

Lemma migrateNotificationTypes_run w :
  let got := read_types w in
  let stmt := names_statement "notification_types" "name" got in
  match migrateNotificationTypes w with
  | (Ok _, w') =>
      notification_types (dest w) = [] ∧ got ≠ [] ∧
      dest w' = foldl add_notification_type (dest w) got ∧
      issued w' = issued w ++ [stmt] ∧
      source w' = source w ∧ stdout w' = stdout w ∧
      (faults w = [] → faults w' = [])
  | (Err e, w') =>
      (∃ cause, e = Wrap cause "notification type migration failed") ∧
      dest w' = dest w ∧ source w' = source w ∧ stdout w' = stdout w ∧
      (issued w' = issued w ∨
       notification_types (dest w) = [] ∧ got ≠ [] ∧
       issued w' = issued w ++ [stmt]) ∧
      (notification_types (dest w) ≠ [] → driver_says w = None →
       e = Wrap (errorString notification_types_not_empty)
             "notification type migration failed")
  | (Panic _, _) => False
  end.
Proof.
  pose proof (bulk_stage_run "notification type migration failed"
    "unable to validate the destination notification_types table"
    notification_types_not_empty "notification_types" "name" NotificationTypes
    (λ w, distinct_lower_types (source w)) add_notification_type
    eq_refl (λ _, eq_refl) insert_notification_types w) as H.
  cbv zeta in *. rewrite <- migrateNotificationTypes_bulk_stage in H.
  change (delivered _ (distinct_lower_types (source w))) with (read_types w) in H.
  destruct (migrateNotificationTypes w) as [[[]|e|msg] w']; [| |done].
  - destruct H as (H0 & H). split; [|done]. by apply length_zero_iff_nil.
  - destruct H as (H0 & H1 & H2 & H3 & H4 & H5). repeat split; try done.
    + destruct H4 as [H4|(H4 & H6)]; [by left|right].
      split; [|done]. by apply length_zero_iff_nil.
    + intros Hne. apply H5. simpl. by destruct (notification_types (dest w)).
Qed.

(** ** The notification stage *)

(** What one turn of the loop comes to. *)
Lemma migrateNotification_eq tmap umap row w :
  migrateNotification notifications_base tmap umap row w =
  match Unmarshal float64 ParseFloat (r_message row) with
  | Ok outgoing =>
      match outgoing ≫= obj_get "message" with
      | Some (JObject inner) =>
          wrapping notification_failed (Exec (row_statement tmap umap row)) w
      | entry =>
          (Panic ("interface conversion: interface {} is "
                  +:+ dynamic_type entry +:+ ", not " +:+ mapType), w)
      end
  | Err e => (Err (Wrap e notification_failed), w)
  | Panic msg => (Panic msg, w)
  end.
Proof.
  unfold migrateNotification.
  unfold mbind at 1. unfold M_bind at 1. unfold wrapping at 1. unfold pure at 1.
  destruct (Unmarshal float64 ParseFloat (r_message row)) as [[top|]|e|msg] eqn:HU;
    try reflexivity.
  unfold set_message_id. simpl (_ ≫= obj_get _).
  destruct (obj_get "message" top) as [[| | | | |inner]|] eqn:HG; try reflexivity.
  assert (outgoing_text row =
          encode_value float64 FormatFloat
            (JObject (with_message_id (r_id row) top inner))) as Htext.
  { unfold outgoing_text, outgoing_object. by rewrite HU, HG. }
  unfold row_statement, row_values. rewrite Htext. reflexivity.
Qed.

Lemma Unmarshal_no_panic data msg : Unmarshal float64 ParseFloat data ≠ Panic msg.
Proof. unfold Unmarshal. by repeat case_match. Qed.

(** The outcome of a turn of the loop, and the world it leaves. *)
Lemma migrateNotification_run tmap umap row w :
  let w1 := after_call (set_issued (issued w ++ [row_statement tmap umap row]) w) in
  match migrateNotification notifications_base tmap umap row w with
  | (Ok _, w') =>
      is_Some (outgoing_object row) ∧
      w' = set_dest (add_notification (dest w) (row_record tmap umap row)) w1
  | (Err e, w') =>
      (∃ cause, e = Wrap cause notification_failed) ∧
      (w' = w ∧ outgoing_object row = None ∧
       (∃ e0, Unmarshal float64 ParseFloat (r_message row) = Err e0 ∧
              e = Wrap e0 notification_failed) ∨
       w' = w1 ∧ is_Some (outgoing_object row) ∧
       ∃ msg, e = Wrap (driverError msg) notification_failed)
  | (Panic _, w') =>
      w' = w ∧ outgoing_object row = None ∧
      ∃ outgoing, Unmarshal float64 ParseFloat (r_message row) = Ok outgoing
  end.
Proof.
  intros w1. rewrite migrateNotification_eq. unfold outgoing_object.
  pose proof (Unmarshal_no_panic (r_message row)) as Hnp.
  destruct (Unmarshal float64 ParseFloat (r_message row)) as [[top|]|e|msg];
    simpl (_ ≫= obj_get _); [| | |by destruct (Hnp msg)].
  3:{ split; [by eexists|]. left. split_and!; [done..|by eexists]. }
  2:{ split_and!; [done..|by eexists]. }
  destruct (obj_get "message" top) as [[| | | | |inner]|];
    try (split_and!; [done..|by eexists]).
  destruct (wrapping _ _ w) as [r w'] eqn:H.
  apply wrapping_run in H as (r0 & H & ->). apply Exec_run in H. cbv zeta in H.
  fold w1 in H. destruct (driver_says w).
  { destruct H as [-> ->]. split; [by eauto|]. right. by eauto. }
  assert (apply_insert (row_statement tmap umap row) (dest w) =
          Some (add_notification (dest w) (row_record tmap umap row))) as Hins.
  { reflexivity. }
  rewrite Hins in H. destruct H as [-> ->]. by eauto.
Qed.

(** The loop: the rows are taken in order; [attempted] are those whose insert
    was passed to [Exec], [applied] those the destination took.  A loop that
    ends without an error has not always seen every row. *)
Lemma for_rows_run tmap umap rows w r w' :
  for_rows (λ row _, migrateNotification notifications_base tmap umap row) rows tt w
    = (r, w') →
  ∃ attempted applied,
    attempted `prefix_of` rows ∧ applied `prefix_of` attempted ∧
    Forall (λ row, is_Some (outgoing_object row)) attempted ∧
    issued w' = issued w ++ (row_statement tmap umap <$> attempted) ∧
    dest w' = foldl add_notification (dest w) (row_record tmap umap <$> applied) ∧
    source w' = source w ∧ stdout w' = stdout w ∧
    (faults w = [] → faults w' = []) ∧
    match r with
    | Ok _ => attempted = applied ∧ (faults w = [] → applied = rows)
    | Err e =>
        (∃ cause, e = Wrap cause notification_failed) ∧
        ∃ row, (applied ++ [row]) `prefix_of` rows ∧
               (attempted = applied ∧ outgoing_object row = None ∧
                (∃ e0, Unmarshal float64 ParseFloat (r_message row) = Err e0 ∧
                       e = Wrap e0 notification_failed) ∨
                attempted = applied ++ [row] ∧
                ∃ msg, e = Wrap (driverError msg) notification_failed)
    | Panic _ =>
        ∃ row, (applied ++ [row]) `prefix_of` rows ∧
               attempted = applied ∧ outgoing_object row = None ∧
               ∃ outgoing, Unmarshal float64 ParseFloat (r_message row) = Ok outgoing
    end.
Proof.
  revert w. induction rows as [|row rows IH]; intros w H.
  { simpl in H. unfold mbind, M_bind, rows_Next, mret, M_ret in H. simplify_eq.
    exists [], []. rewrite app_nil_r. split_and!; try done.
    intros Hf. simpl. by rewrite Hf. }
  cbn [for_rows] in H.
  apply bind_run in H as [(more & w0 & H0 & H)|[(e & H0 & _)|(msg & H0 & _)]];
    [|done..].
  unfold rows_Next in H0. injection H0 as <- <-.
  destruct (bool_decide (driver_says w = None)) eqn:Hmore.
  2:{ unfold mret, M_ret in H. simplify_eq.
      exists [], []. rewrite app_nil_r.
      split_and!; try done; try apply prefix_nil.
      - intros Hf. simpl. by rewrite Hf.
      - intros Hf. apply bool_decide_eq_false in Hmore. destruct Hmore.
        unfold driver_says. by rewrite Hf. }
  pose proof (migrateNotification_run tmap umap row (after_call w)) as Hrow.
  cbv zeta in Hrow.
  assert (∀ w2, faults w = [] → faults w2 = faults (after_call w) → faults w2 = [])
    as Hfaults.
  { intros w2 Hf ->. simpl. by rewrite Hf. }
  apply bind_run in H as [([] & w1 & H1 & H)|[(e & H1 & ->)|(msg & H1 & ->)]];
    rewrite H1 in Hrow.
  - destruct Hrow as [Hsome ->].
    apply IH in H
      as (attempted & applied & Hp1 & Hp2 & Hall & Hi & Hd & Hs & Ho & Hf & Hr).
    exists (row :: attempted), (row :: applied). simpl in Hi, Hd, Hs, Ho.
    split; [by apply prefix_cons|]. split; [by apply prefix_cons|].
    split; [by constructor|]. rewrite Hi, <- app_assoc. split; [done|].
    split; [done|]. split; [done|]. split; [done|].
    split.
    { intros Hf0. apply Hf. simpl. by rewrite Hf0. }
    destruct r as [[]|e|msg].
    + destruct Hr as [-> Hr]. split; [done|]. intros Hf0. rewrite Hr; [done|].
      simpl. by rewrite Hf0.
    + destruct Hr as (Hc & row' & Hp & Hr). split; [done|]. exists row'.
      split; [by apply prefix_cons|].
      destruct Hr as [(-> & Hr)|(-> & Hr)]; [by left|by right].
    + destruct Hr as (row' & Hp & -> & Hr). exists row'.
      split; [by apply prefix_cons|]. done.
  - destruct Hrow as [Hc [(-> & Hnone & He)|(-> & Hsome & He)]].
    + exists [], []. rewrite app_nil_r.
      split_and!; try done; try apply prefix_nil.
      { intros Hf. by apply Hfaults. }
      exists row. split; [by apply prefix_cons, prefix_nil|]. by left.
    + exists [row], []. split_and!; try done; try apply prefix_nil.
      * by apply prefix_cons, prefix_nil.
      * by repeat constructor.
      * intros Hf. simpl. by rewrite Hf.
      * exists row. split; [by apply prefix_cons, prefix_nil|]. by right.
  - destruct Hrow as (-> & Hnone & Ho). exists [], []. rewrite app_nil_r.
    split_and!; try done; try apply prefix_nil.
    { intros Hf. by apply Hfaults. }
    exists row. split; [by apply prefix_cons, prefix_nil|]. done.
Qed.

(** A dictionary load is one query and the loop over its rows; it leaves
    everything but the driver's coming outcomes as it was, and the map it
    returns is made of the rows the loop got. *)
Lemma get_map_run (wrapMsg : string) (f : World → list (string * string)) w r w' :
  (rows ← wrapping wrapMsg (db_call ;; reading f);
   for_rows (λ row result, mret (<[row.2 := row.1]> result)) rows ∅) w = (r, w') →
  source w' = source w ∧ dest w' = dest w ∧ issued w' = issued w ∧
  stdout w' = stdout w ∧ (faults w = [] → faults w' = []) ∧
  match driver_says w with
  | Some msg => r = Err (Wrap (driverError msg) wrapMsg)
  | None => r = Ok (fill_map (delivered (drop 1 (faults w)) (f (after_call w))))
  end.
Proof.
  intros H.
  apply bind_run in H as [(rows & w1 & H1 & H)|[(e & H1 & ->)|(msg & H1 & ->)]];
    apply wrapping_run in H1 as (r0 & H1 & Hr);
    apply query_run in H1 as [-> H1].
  - rewrite (for_rows_pure (λ result row, <[row.2 := row.1]> result)) in H.
    injection H as <- <-. simpl. split_and!; try done.
    { intros Hf. by rewrite Hf. }
    destruct (driver_says w); [by subst r0|]. subst r0. injection Hr as ->.
    by rewrite <- faults_after_call.
  - split_and!; try done.
    { intros Hf. simpl. by rewrite Hf. }
    destruct (driver_says w); subst r0; by simplify_eq.
  - destruct (driver_says w); subst r0; by simplify_eq.
Qed.

(** Either the stage fails before its loop, with the destination untouched,
    or it reaches the loop with the two dictionaries, made of the rows it
    got of the two tables, and the stream of the source rows. *)
Lemma migrateNotifications_run w r w' :
  migrateNotifications w = (r, w') →
  (∃ e, r = Err e ∧ (∃ cause, e = Wrap cause notification_failed) ∧
        dest w' = dest w ∧ issued w' = issued w ∧
        source w' = source w ∧ stdout w' = stdout w ∧
        (notifications (dest w) ≠ [] → driver_says w = None →
         e = Wrap (errorString notifications_not_empty) notification_failed)) ∨
  (notifications (dest w) = [] ∧
   ∃ read_t read_u w0,
     read_t `prefix_of` notification_types (dest w) ∧
     read_u `prefix_of` users (dest w) ∧
     (faults w = [] →
      read_t = notification_types (dest w) ∧ read_u = users (dest w) ∧
      faults w0 = []) ∧
     dest w0 = dest w ∧ issued w0 = issued w ∧
     source w0 = source w ∧ stdout w0 = stdout w ∧
     for_rows (λ row _, migrateNotification notifications_base
                          (type_dictionary read_t) (user_dictionary read_u) row)
       (notification_query (source w)) tt w0 = (r, w')).
Proof.
  unfold migrateNotifications. intros H.
  apply bind_run in H as [(? & w1 & H1 & H)|[(e & H1 & ->)|(msg & H1 & ->)]];
    apply wrapping_run in H1 as (r0 & H1 & Hr);
    apply (validate_run Notifications) in H1 as [-> H1].
  2:{ left. destruct r0; simplify_eq. eexists; split; [done|].
      split; [by eauto|]. repeat split; try done.
      intros Hne Hd. rewrite Hd in H1. destruct (decide _) as [Hn|Hn]; [|by simplify_eq].
      simpl in Hn. by destruct (notifications (dest w)). }
  2:{ destruct r0; simplify_eq. destruct (driver_says w); [done|].
      by destruct (decide _). }
  assert (notifications (dest w) = []) as Hempty.
  { destruct r0; simplify_eq. destruct (driver_says w); [done|].
    destruct (decide _) as [Hn|Hn]; [|done]. by apply length_zero_iff_nil. }
  clear H1 Hr r0.
  assert (faults w = [] → faults (after_call w) = []) as Hf1.
  { intros Hf. simpl. by rewrite Hf. }
  apply bind_run in H as [(tmap & w2 & H1 & H)|[(e & H1 & ->)|(msg & H1 & ->)]];
    apply wrapping_run in H1 as (r0 & H1 & Hr);
    apply get_map_run in H1 as (Hs2 & Hd2 & Hi2 & Ho2 & Hf2 & H1).
  2:{ left. destruct r0; simplify_eq. eexists; split; [done|].
      split; [by eauto|]. rewrite Hs2, Hd2, Hi2, Ho2. repeat split; try done. }
  2:{ destruct r0; simplify_eq. by destruct (driver_says _). }
  assert (∃ read_t, read_t `prefix_of` notification_types (dest w) ∧
                    (faults w = [] → read_t = notification_types (dest w)) ∧
                    tmap = type_dictionary read_t) as (read_t & Hpt & Hat & ->).
  { destruct (driver_says (after_call w)); [subst r0; by simplify_eq|].
    subst r0. injection Hr as ->. rewrite delivered_fmap.
    eexists. split; [apply delivered_prefix|]. split; [|done].
    intros Hf. rewrite Hf. simpl. by rewrite delivered_nil. }
  clear H1 Hr r0.
  apply bind_run in H as [(umap & w3 & H1 & H)|[(e & H1 & ->)|(msg & H1 & ->)]];
    apply wrapping_run in H1 as (r0 & H1 & Hr);
    apply get_map_run in H1 as (Hs3 & Hd3 & Hi3 & Ho3 & Hf3 & H1).
  2:{ left. destruct r0; simplify_eq. eexists; split; [done|].
      split; [by eauto|]. rewrite Hs3, Hd3, Hi3, Ho3, Hs2, Hd2, Hi2, Ho2.
      repeat split; try done. }
  2:{ destruct r0; simplify_eq. by destruct (driver_says _). }
  assert (∃ read_u, read_u `prefix_of` users (dest w) ∧
                    (faults w = [] → read_u = users (dest w)) ∧
                    umap = user_dictionary read_u) as (read_u & Hpu & Hau & ->).
  { destruct (driver_says w2); [subst r0; by simplify_eq|].
    subst r0. injection Hr as ->. rewrite delivered_fmap.
    change (dest (after_call w2)) with (dest w2). rewrite Hd2.
    eexists. split; [apply delivered_prefix|]. split; [|done].
    intros Hf. rewrite (Hf2 (Hf1 Hf)). simpl. by rewrite delivered_nil. }
  clear H1 Hr r0.
  apply bind_run in H as [(rows & w4 & H1 & H)|[(e & H1 & ->)|(msg & H1 & ->)]];
    apply wrapping_run in H1 as (r0 & H1 & Hr);
    apply query_run in H1 as [-> H1].
  2:{ left. destruct r0; simplify_eq. eexists; split; [done|].
      split; [by eauto|]. simpl. rewrite Hs3, Hd3, Hi3, Ho3, Hs2, Hd2, Hi2, Ho2.
      repeat split; try done. }
  2:{ destruct r0; simplify_eq. by destruct (driver_says _). }
  assert (rows = notification_query (source w)) as ->.
  { destruct r0; simplify_eq. destruct (driver_says _); simplify_eq.
    simpl. by rewrite Hs3, Hs2. }
  right. split; [done|].
  exists read_t, read_u, (after_call w3). simpl.
  rewrite Hs3, Hd3, Hi3, Ho3, Hs2, Hd2, Hi2, Ho2.
  split_and!; try done.
  intros Hf. split_and!; [by apply Hat|by apply Hau|].
  rewrite (Hf3 (Hf2 (Hf1 Hf))). done.
Qed.

(** ** Tables after inserts *)

Lemma foldl_add_user d names :
  users (foldl add_user d names) =
    users d ++ imap (λ i name, {| du_id := new_id d (generated d + i);
                                  du_username := name |}) names ∧
  notification_types (foldl add_user d names) = notification_types d ∧
  notifications (foldl add_user d names) = notifications d ∧
  generated (foldl add_user d names) = generated d + length names ∧
  new_id (foldl add_user d names) = new_id d.
Proof.
  revert d. induction names as [|name names IH]; intros d; simpl.
  { rewrite app_nil_r, Nat.add_0_r. done. }
  destruct (IH (add_user d name)) as (H1 & H2 & H3 & H4 & H5).
  rewrite H1, H2, H3, H4, H5. simpl. repeat split; try done; try lia.
  rewrite <- app_assoc, Nat.add_0_r. simpl. do 2 f_equal.
  apply imap_ext. intros i x _. simpl. do 2 f_equal. lia.
Qed.

Lemma foldl_add_notification_type d names :
  users (foldl add_notification_type d names) = users d ∧
  notification_types (foldl add_notification_type d names) =
    notification_types d ++
    imap (λ i name, {| nt_id := new_id d (generated d + i); nt_name := name |}) names ∧
  notifications (foldl add_notification_type d names) = notifications d ∧
  generated (foldl add_notification_type d names) = generated d + length names ∧
  new_id (foldl add_notification_type d names) = new_id d.
Proof.
  revert d. induction names as [|name names IH]; intros d; simpl.
  { rewrite app_nil_r, Nat.add_0_r. done. }
  destruct (IH (add_notification_type d name)) as (H1 & H2 & H3 & H4 & H5).
  rewrite H1, H2, H3, H4, H5. simpl. repeat split; try done; try lia.
  rewrite <- app_assoc, Nat.add_0_r. simpl. do 2 f_equal.
  apply imap_ext. intros i x _. simpl. do 2 f_equal. lia.
Qed.

Lemma foldl_add_notification d ns :
  users (foldl add_notification d ns) = users d ∧
  notification_types (foldl add_notification d ns) = notification_types d ∧
  notifications (foldl add_notification d ns) = notifications d ++ ns ∧
  generated (foldl add_notification d ns) = generated d ∧
  new_id (foldl add_notification d ns) = new_id d.
Proof.
  revert d. induction ns as [|n ns IH]; intros d; simpl.
  { by rewrite app_nil_r. }
  destruct (IH (add_notification d n)) as (-> & -> & -> & -> & ->). simpl.
  by rewrite <- app_assoc.
Qed.

(** The notification stage as a whole: the rows it got of the two tables
    for its dictionaries, which source rows it reached, and what it left in
    the destination. *)
Lemma migrateNotifications_rows w r w' :
  migrateNotifications w = (r, w') →
  ∃ read_t read_u attempted applied,
    read_t `prefix_of` notification_types (dest w) ∧
    read_u `prefix_of` users (dest w) ∧
    (faults w = [] →
     read_t = notification_types (dest w) ∧ read_u = users (dest w)) ∧
    attempted `prefix_of` notification_query (source w) ∧
    applied `prefix_of` attempted ∧
    Forall (λ row, is_Some (outgoing_object row)) attempted ∧
    issued w' = issued w ++
      (row_statement (type_dictionary read_t) (user_dictionary read_u) <$> attempted) ∧
    users (dest w') = users (dest w) ∧
    notification_types (dest w') = notification_types (dest w) ∧
    notifications (dest w') =
      notifications (dest w) ++
      (row_record (type_dictionary read_t) (user_dictionary read_u) <$> applied) ∧
    source w' = source w ∧ stdout w' = stdout w ∧
    match r with
    | Ok _ =>
        notifications (dest w) = [] ∧ attempted = applied ∧
        (faults w = [] → applied = notification_query (source w))
    | Err e => ∃ cause, e = Wrap cause notification_failed
    | Panic _ =>
        notifications (dest w) = [] ∧
        ∃ row, row ∈ notification_query (source w) ∧ outgoing_object row = None
    end.
Proof.
  intros H.
  apply migrateNotifications_run in H
    as [(e & -> & Hc & Hd & Hi & Hs & Ho & _)|
        (Hempty & read_t & read_u & w0 & Hpt & Hpu & Hf & Hd0 & Hi0 & Hs0 & Ho0 & H)].
  { exists (notification_types (dest w)), (users (dest w)), [], [].
    rewrite Hd, Hi, !app_nil_r. split_and!; try done; apply prefix_nil. }
  apply for_rows_run in H
    as (attempted & applied & Hp1 & Hp2 & Hall & Hi & Hd & Hs & Ho & _ & Hr).
  exists read_t, read_u, attempted, applied.
  destruct (foldl_add_notification (dest w0)
              (row_record (type_dictionary read_t) (user_dictionary read_u) <$> applied))
    as (Hu & Ht & Hn & _).
  rewrite Hd, Hu, Ht, Hn, Hi, Hs, Ho, Hd0, Hi0, Hs0, Ho0.
  split_and!; try done.
  { intros Hf0. by destruct (Hf Hf0) as (? & ? & _). }
  destruct r as [[]|e|msg].
  - destruct Hr as [-> Hr]. split_and!; try done.
    intros Hf0. apply Hr. by destruct (Hf Hf0) as (_ & _ & ?).
  - by destruct Hr.
  - destruct Hr as (row & Hp & _ & Hnone & _). split; [done|]. exists row.
    split; [|done]. destruct Hp as [k ->]. set_solver.
Qed.

Lemma migrateNotifications_dest w r w' :
  migrateNotifications w = (r, w') →
  ∃ tmap umap applied,
    applied `prefix_of` notification_query (source w) ∧
    dest w' = foldl add_notification (dest w) (row_record tmap umap <$> applied).
Proof.
  intros H.
  apply migrateNotifications_run in H
    as [(e & -> & _ & Hd & _)|
        (_ & read_t & read_u & w0 & _ & _ & _ & Hd0 & _ & _ & _ & H)].
  { exists ∅, ∅, []. split; [apply prefix_nil|done]. }
  apply for_rows_run in H as (attempted & applied & Hp1 & Hp2 & _ & _ & Hd & _).
  eexists _, _, applied. split; [by etrans|]. by rewrite Hd, Hd0.
Qed.

(** ** Maps *)

Lemma fill_map_snoc rows row :
  fill_map (rows ++ [row]) = <[row.2 := row.1]> (fill_map rows).
Proof. unfold fill_map. by rewrite foldl_snoc. Qed.

Lemma fill_map_lookup_Some rows k v :
  fill_map rows !! k = Some v → (v, k) ∈ rows.
Proof.
  induction rows as [|[v' k'] rows IH] using rev_ind; [done|].
  rewrite fill_map_snoc. simpl. intros H.
  destruct (decide (k' = k)) as [->|Hne].
  - rewrite lookup_insert_eq in H. simplify_eq. set_solver.
  - rewrite lookup_insert_ne in H by done. set_solver.
Qed.

Lemma fill_map_lookup_is_Some rows k :
  k ∈ rows.*2 → is_Some (fill_map rows !! k).
Proof.
  induction rows as [|[v' k'] rows IH] using rev_ind; [set_solver|].
  rewrite fill_map_snoc, fmap_app. simpl. intros H.
  destruct (decide (k' = k)) as [->|Hne].
  - rewrite lookup_insert_eq. by eauto.
  - rewrite lookup_insert_ne by done. apply IH. set_solver.
Qed.


Lemma index_None (m : gmap string string) k : m !! k = None → index m k = "".
Proof. unfold index. by intros ->. Qed.



(** ** Folding to lower case *)



(** ** The notification query *)

#[export] Instance created_before_total : Total created_before.
Proof. intros a b. unfold created_before. lia. Qed.

#[export] Instance created_before_trans : Transitive created_before.
Proof. intros a b c. unfold created_before. lia. Qed.

Lemma notification_query_sorted s : StronglySorted created_before (notification_query s).
Proof. apply StronglySorted_merge_sort; apply _. Qed.





(** ** The orchestrator *)

Lemma runMigration_eq w :
  runMigration w =
  match migrateUsers (printed "Migrating users..." w) with
  | (Ok _, w2) =>
      match migrateNotificationTypes (printed "Migrating notification types..." w2) with
      | (Ok _, w4) =>
          match migrateNotifications (printed "Migrating notifications..." w4) with
          | (Ok _, w6) => (Ok tt, w6)
          | (Err e, w6) => (Err (Wrap e migration_failed), w6)
          | (Panic msg, w6) => (Panic msg, w6)
          end
      | (Err e, w4) => (Err (Wrap e migration_failed), w4)
      | (Panic msg, w4) => (Panic msg, w4)
      end
  | (Err e, w2) => (Err (Wrap e migration_failed), w2)
  | (Panic msg, w2) => (Panic msg, w2)
  end.
Proof.
  unfold runMigration, mbind, M_bind, wrapping, Println, printed, mret, M_ret.
  destruct (migrateUsers _) as [[[]|e|msg] w2]; try done.
  destruct (migrateNotificationTypes _) as [[[]|e|msg] w4]; try done.
  destruct (migrateNotifications _) as [[[]|e|msg] w6]; done.
Qed.

(** C9. runMigration runs the user stage, then the notification-type stage,
    then the notification stage.  A stage that fails ends the run in the
    world that stage left, with no later stage run and no later progress
    line printed; its error is the stage's own wrapped error (which carries
    the stage's message) wrapped once more with the message of the run. *)
Theorem C9_stages_in_order_first_failure_wrapped w :
  let w1 := printed "Migrating users..." w in
  match migrateUsers w1 with
  | (Err e, w2) =>
      runMigration w = (Err (Wrap e migration_failed), w2) ∧
      (∃ cause, e = Wrap cause "user migration failed") ∧
      stdout w2 = stdout w ++ ["Migrating users..."]
  | (Panic _, _) => False
  | (Ok _, w2) =>
      let w3 := printed "Migrating notification types..." w2 in
      match migrateNotificationTypes w3 with
      | (Err e, w4) =>
          runMigration w = (Err (Wrap e migration_failed), w4) ∧
          (∃ cause, e = Wrap cause "notification type migration failed") ∧
          stdout w4 = stdout w ++ ["Migrating users..."; "Migrating notification types..."]
      | (Panic _, _) => False
      | (Ok _, w4) =>
          let w5 := printed "Migrating notifications..." w4 in
          stdout w5 = stdout w ++ ["Migrating users..."; "Migrating notification types...";
                                   "Migrating notifications..."] ∧
          match migrateNotifications w5 with
          | (Err e, w6) =>
              runMigration w = (Err (Wrap e migration_failed), w6) ∧
              (∃ cause, e = Wrap cause "notification migration failed")
          | (Panic msg, w6) => runMigration w = (Panic msg, w6)
          | (Ok _, w6) => runMigration w = (Ok tt, w6)
          end
      end
  end.
Proof.
  intros w1. rewrite runMigration_eq. fold w1.
  pose proof (migrateUsers_run w1) as H1. cbv zeta in H1.
  destruct (migrateUsers w1) as [[[]|e|msg] w2]; [| |done].
  2:{ destruct H1 as (Hc & _ & _ & Ho & _). rewrite Ho. done. }
  destruct H1 as (_ & _ & _ & _ & _ & Ho2 & _).
  intros w3. fold w3. pose proof (migrateNotificationTypes_run w3) as H3.
  cbv zeta in H3.
  destruct (migrateNotificationTypes w3) as [[[]|e|msg] w4]; [| |done].
  2:{ destruct H3 as (Hc & _ & _ & Ho & _). split; [done|split; [done|]].
      rewrite Ho. simpl. rewrite Ho2. simpl. by rewrite <- app_assoc. }
  destruct H3 as (_ & _ & _ & _ & _ & Ho4 & _). intros w5. fold w5.
  split.
  { simpl. rewrite Ho4. simpl. rewrite Ho2. simpl. by rewrite <- !app_assoc. }
  destruct (migrateNotifications w5) as [[[]|e|msg] w6] eqn:H5; try done.
  split; [done|].
  apply migrateNotifications_rows in H5
    as (? & ? & ? & ? & _ & _ & _ & _ & _ & _ & _ & _ & _ & _ & _ & _ & Hc).
  exact Hc.
Qed.

(** ** The payload *)





(** ** The order of the inserts *)

Lemma creation_times_row_statements tmap umap rows :
  creation_times (row_statement tmap umap <$> rows) = r_timeCreated <$> rows.
Proof.
  unfold creation_times. induction rows as [|row rows IH]; [done|].
  rewrite fmap_cons, bind_cons, IH. done.
Qed.

Lemma prefix_sorted_times attempted s :
  attempted `prefix_of` notification_query s →
  StronglySorted Z.le (r_timeCreated <$> attempted).
Proof.
  intros [k Hk]. pose proof (notification_query_sorted s) as Hs. rewrite Hk in Hs.
  apply StronglySorted_app_1_l in Hs.
  by apply (StronglySorted_fmap _ created_before Z.le).
Qed.

(** C6. The statements the notification stage passes to Exec are inserts
    into notifications of one row each, one per source notification and in
    the order of the query; the creation times they carry never decrease
    from one statement to the next ones. *)
Theorem C6_inserts_in_creation_order_one_row_each w r w' :
  migrateNotifications w = (r, w') →
  ∃ attempted stmts,
    issued w' = issued w ++ stmts ∧
    attempted `prefix_of` notification_query (source w) ∧
    (r = Ok tt → faults w = [] → attempted = notification_query (source w)) ∧
    Forall2 (λ row st,
       st_into st = "notifications" ∧
       ∃ values, st_rows st = [values] ∧ values !! 0 = Some (VText (r_id row)) ∧
                 created_time values = [r_timeCreated row])
      attempted stmts ∧
    StronglySorted Z.le (creation_times stmts).
Proof.
  intros H. apply migrateNotifications_rows in H
    as (read_t & read_u & attempted & applied & _ & _ & _ & Hp1 & Hp2 & _ & Hi &
        _ & _ & _ & _ & _ & Hr).
  exists attempted,
    (row_statement (type_dictionary read_t) (user_dictionary read_u) <$> attempted).
  split; [done|]. split; [done|]. split.
  { intros -> Hf. destruct Hr as (_ & -> & Hr). by apply Hr. }
  split.
  - apply Forall2_fmap_r, Forall_Forall2_diag, Forall_forall. intros row _.
    split; [done|]. by eexists.
  - rewrite creation_times_row_statements. by eapply prefix_sorted_times.
Qed.

(** ** The names the bulk stages store *)

Lemma usernames_stored (g : nat → string) names :
  du_username <$> imap (λ i name, {| du_id := g i; du_username := name |}) names
  = names.
Proof.
  revert g. induction names as [|name names IH]; intros g; [done|].
  simpl. f_equal. apply (IH (g ∘ S)).
Qed.

Lemma type_names_stored (g : nat → string) names :
  nt_name <$> imap (λ i name, {| nt_id := g i; nt_name := name |}) names = names.
Proof.
  revert g. induction names as [|name names IH]; intros g; [done|].
  simpl. f_equal. apply (IH (g ∘ S)).
Qed.

Lemma prefix_NoDup {A : Type} (l1 l2 : list A) :
  l1 `prefix_of` l2 → NoDup l2 → NoDup l1.
Proof. intros [k ->] Hnd. by apply NoDup_app in Hnd as (? & _). Qed.

Lemma prefix_elem_of {A : Type} (l1 l2 : list A) x :
  l1 `prefix_of` l2 → x ∈ l1 → x ∈ l2.
Proof. intros [k ->] Hx. set_solver. Qed.



(** ** Notifications without a user *)




(** ** Resolving the foreign keys *)



(** The destination at the three points of a run that succeeds: what the
    first two stages have stored, of which rows the dictionaries were made,
    and which source rows the loop got. *)
Lemma runMigration_Ok w w' :
  runMigration w = (Ok tt, w') →
  users (dest w) = [] ∧ notification_types (dest w) = [] ∧
  notifications (dest w) = [] ∧
  ∃ d read_t read_u rows,
    du_username <$> users d = read_usernames (printed "Migrating users..." w) ∧
    users d ≠ [] ∧ notification_types d ≠ [] ∧
    (nt_name <$> notification_types d) `prefix_of` distinct_lower_types (source w) ∧
    read_t `prefix_of` notification_types d ∧
    read_u `prefix_of` users d ∧
    rows `prefix_of` notification_query (source w) ∧
    Forall (λ row, is_Some (outgoing_object row)) rows ∧
    users (dest w') = users d ∧
    notification_types (dest w') = notification_types d ∧
    notifications (dest w') =
      row_record (type_dictionary read_t) (user_dictionary read_u) <$> rows ∧
    (faults w = [] →
     nt_name <$> notification_types d = distinct_lower_types (source w) ∧
     read_t = notification_types d ∧ read_u = users d ∧
     rows = notification_query (source w)).
Proof.
  rewrite runMigration_eq. intros H.
  pose proof (migrateUsers_run (printed "Migrating users..." w)) as H1.
  cbv zeta in H1.
  destruct (migrateUsers _) as [[[]|e|msg] w2]; [|done..].
  destruct H1 as (Hu & Hne2 & Hd2 & _ & Hs2 & _ & Hf2).
  pose proof (migrateNotificationTypes_run (printed "Migrating notification types..." w2))
    as H3. cbv zeta in H3.
  destruct (migrateNotificationTypes _) as [[[]|e|msg] w4]; [|done..].
  destruct H3 as (Ht & Hne4 & Hd4 & _ & Hs4 & _ & Hf4).
  destruct (migrateNotifications _) as [[[]|e|msg] w6] eqn:H5; [|done..].
  simplify_eq. apply migrateNotifications_rows in H5
    as (read_t & read_u & attempted & applied & Hpt & Hpu & Hfd & Hp1 & _ & Hall &
        _ & Hu6 & Ht6 & Hn6 & _ & _ & Hn & -> & Hfr).
  simpl in *. rewrite Hn in Hn6. simpl in Hn6.
  set (names := read_usernames (printed "Migrating users..." w)) in *.
  set (types := read_types (printed "Migrating notification types..." w2)) in *.
  destruct (foldl_add_user (dest w) names) as (Hu2 & Ht2 & Hn2 & _).
  destruct (foldl_add_notification_type (dest w2) types) as (Hu4 & Ht4 & Hn4 & _).
  rewrite <- Hd2 in Hu2, Ht2, Hn2. rewrite <- Hd4 in Hu4, Ht4, Hn4.
  rewrite Ht2 in Ht. rewrite Hn4, Hn2 in Hn. rewrite Hs4, Hs2 in Hp1, Hfr.
  assert (du_username <$> users (dest w4) = names) as Hnames.
  { rewrite Hu4, Hu2, Hu. simpl.
    apply (usernames_stored (λ i, new_id (dest w) (generated (dest w) + i))). }
  assert (nt_name <$> notification_types (dest w4) = types) as Htypes.
  { rewrite Ht4, Ht2, Ht. simpl.
    apply (type_names_stored (λ i, new_id (dest w2) (generated (dest w2) + i))). }
  split; [done|]. split; [done|]. split; [done|].
  exists (dest w4), read_t, read_u, applied. rewrite Hu6, Ht6, Hn6.
  split_and!; try done.
  - intros Hnil. rewrite Hnil in Hnames. by destruct names.
  - intros Hnil. rewrite Hnil in Htypes. by destruct types.
  - rewrite Htypes. unfold types, read_types. simpl. rewrite Hs2.
    apply delivered_prefix.
  - intros Hf.
    assert (faults (printed "Migrating notification types..." w2) = []) as Hf3
      by (apply Hf2; done).
    assert (faults (printed "Migrating notifications..." w4) = []) as Hf5
      by (apply Hf4; done).
    destruct (Hfd Hf5) as [-> ->]. split_and!; try done; [|by apply Hfr].
    rewrite Htypes. unfold types, read_types. rewrite Hf3. simpl.
    by rewrite Hs2, delivered_nil.
Qed.


(** ** A source without rows *)

Lemma remove_dups_nil_inv {A : Type} `{EqDecision A} (l : list A) :
  remove_dups l = [] → l = [].
Proof.
  destruct l as [|x l]; [done|]. intros H.
  assert (x ∈ remove_dups (x :: l)) as Hx by (apply elem_of_remove_dups; set_solver).
  rewrite H in Hx. by apply elem_of_nil in Hx.
Qed.

Lemma migrateUsers_no_rows w :
  faults w = [] → users (dest w) = [] → usernames (source w) = [] →
  migrateUsers w = (Err (Wrap (errorString no_values) "user migration failed"), w).
Proof.
  destruct w as [[su sn] [us ts ns g nid] fs iss out]. unfold usernames. simpl.
  intros -> -> Hsu. apply fmap_nil_inv in Hsu as ->. reflexivity.
Qed.

Lemma migrateNotificationTypes_no_rows w :
  faults w = [] → notification_types (dest w) = [] →
  distinct_lower_types (source w) = [] →
  migrateNotificationTypes w =
  (Err (Wrap (errorString no_values) "notification type migration failed"), w).
Proof.
  destruct w as [[su sn] [us ts ns g nid] fs iss out]. unfold distinct_lower_types.
  simpl. intros -> -> Hsn. apply remove_dups_nil_inv, fmap_nil_inv in Hsn as ->.
  reflexivity.
Qed.

(** With no driver failure, a loop that only assigns its variables gets
    every row, and a dictionary load gives the dictionary of the table. *)
Lemma for_rows_pure_no_faults {A St : Type} (f : St → A → St) (rows : list A)
    (s : St) src d iss out :
  for_rows (λ x s, mret (f s x)) rows s
    {| source := src; dest := d; faults := []; issued := iss; stdout := out |} =
  (Ok (foldl f s rows),
   {| source := src; dest := d; faults := []; issued := iss; stdout := out |}).
Proof. rewrite for_rows_pure. simpl. by rewrite delivered_nil. Qed.

Lemma getNotificationTypeIDMap_no_faults src d iss out :
  getNotificationTypeIDMap
    {| source := src; dest := d; faults := []; issued := iss; stdout := out |} =
  (Ok (type_ids d),
   {| source := src; dest := d; faults := []; issued := iss; stdout := out |}).
Proof.
  unfold getNotificationTypeIDMap, Query_notification_type_ids.
  unfold mbind at 1. unfold M_bind at 1.
  unfold wrapping, mbind, M_bind, db_call, reading, driver_says, after_call. simpl.
  unfold set_faults. simpl.
  by rewrite (for_rows_pure_no_faults (λ result row, <[row.2 := row.1]> result)).
Qed.

Lemma getUserIDMap_no_faults src d iss out :
  getUserIDMap
    {| source := src; dest := d; faults := []; issued := iss; stdout := out |} =
  (Ok (user_ids d),
   {| source := src; dest := d; faults := []; issued := iss; stdout := out |}).
Proof.
  unfold getUserIDMap, Query_user_ids.
  unfold mbind at 1. unfold M_bind at 1.
  unfold wrapping, mbind, M_bind, db_call, reading, driver_says, after_call. simpl.
  unfold set_faults. simpl.
  by rewrite (for_rows_pure_no_faults (λ result row, <[row.2 := row.1]> result)).
Qed.

(** With no driver failure and an empty notifications table, the stage is
    its loop over the rows of the query. *)
Lemma migrateNotifications_no_faults w :
  faults w = [] → notifications (dest w) = [] →
  migrateNotifications w =
  for_rows (λ row _, migrateNotification notifications_base
                       (type_ids (dest w)) (user_ids (dest w)) row)
    (notification_query (source w)) tt w.
Proof.
  destruct w as [s [us ts ns g nid] fs iss out]. simpl. intros -> ->.
  unfold migrateNotifications.
  unfold mbind at 1. unfold M_bind at 1.
  assert (wrapping "notification migration failed" validateDestinationNotificationsTable
            {| source := s;
               dest := {| users := us; notification_types := ts; notifications := [];
                          generated := g; new_id := nid |};
               faults := []; issued := iss; stdout := out |} =
          (Ok tt,
           {| source := s;
              dest := {| users := us; notification_types := ts; notifications := [];
                         generated := g; new_id := nid |};
              faults := []; issued := iss; stdout := out |})) as -> by reflexivity.
  unfold mbind at 1. unfold M_bind at 1. unfold wrapping at 1.
  rewrite getNotificationTypeIDMap_no_faults.
  unfold mbind at 1. unfold M_bind at 1. unfold wrapping at 1.
  rewrite getUserIDMap_no_faults.
  reflexivity.
Qed.

(** C2 (as the code has it). With no source rows, the notification stage
    issues no statement, leaves the destination as it is and, when no
    database call fails and the notifications table is empty, returns no
    error.  The user stage and the notification-type stage with no source
    rows also insert nothing, but they fail: when no database call fails and
    the stage's table is empty, with the builder's error for a statement
    without values, wrapped with the stage's message. *)
Theorem C2_zero_source_rows w :
  (usernames (source w) = [] →
   ∃ e w', migrateUsers w = (Err e, w') ∧ dest w' = dest w ∧ issued w' = issued w ∧
     (faults w = [] → users (dest w) = [] →
      e = Wrap (errorString no_values) "user migration failed")) ∧
  (distinct_lower_types (source w) = [] →
   ∃ e w', migrateNotificationTypes w = (Err e, w') ∧
     dest w' = dest w ∧ issued w' = issued w ∧
     (faults w = [] → notification_types (dest w) = [] →
      e = Wrap (errorString no_values) "notification type migration failed")) ∧
  (notification_query (source w) = [] →
   ∃ r w', migrateNotifications w = (r, w') ∧
     dest w' = dest w ∧ issued w' = issued w ∧
     (faults w = [] → notifications (dest w) = [] → r = Ok tt)).
Proof.
  assert (∀ (fs : list (option string)) (A : Type), @delivered A fs [] = [])
    as Hnone by done.
  split; [|split].
  - intros Hrows. pose proof (migrateUsers_run w) as H. cbv zeta in H.
    unfold read_usernames in H. rewrite Hrows, Hnone in H.
    destruct (migrateUsers w) as [[[]|e|msg] w'] eqn:Hrun; [by destruct H as (_ & ? & _)| |done].
    destruct H as (_ & Hd & _ & _ & Hi & _). exists e, w'.
    split; [done|]. split; [done|]. split; [by destruct Hi as [?|(_ & ? & _)]|].
    intros Hf Hu. rewrite migrateUsers_no_rows in Hrun by done. by simplify_eq.
  - intros Hrows. pose proof (migrateNotificationTypes_run w) as H. cbv zeta in H.
    unfold read_types in H. rewrite Hrows, Hnone in H.
    destruct (migrateNotificationTypes w) as [[[]|e|msg] w'] eqn:Hrun;
      [by destruct H as (_ & ? & _)| |done].
    destruct H as (_ & Hd & _ & _ & Hi & _). exists e, w'.
    split; [done|]. split; [done|]. split; [by destruct Hi as [?|(_ & ? & _)]|].
    intros Hf Hu. rewrite migrateNotificationTypes_no_rows in Hrun by done.
    by simplify_eq.
  - intros Hrows. destruct (migrateNotifications w) as [r w'] eqn:Hrun.
    exists r, w'. split; [done|].
    pose proof Hrun as H. apply migrateNotifications_rows in H
      as (read_t & read_u & attempted & applied & _ & _ & _ & Hp1 & Hp2 & _ & Hi &
          _ & _ & _ & _).
    rewrite Hrows in Hp1. apply prefix_nil_inv in Hp1 as ->.
    apply prefix_nil_inv in Hp2 as ->. simpl in Hi. rewrite app_nil_r in Hi.
    split; [|split; [done|]].
    + apply migrateNotifications_dest in Hrun as (tmap & umap & applied & Hp & ->).
      rewrite Hrows in Hp. by apply prefix_nil_inv in Hp as ->.
    + intros Hf He. rewrite migrateNotifications_no_faults, Hrows in Hrun by done.
      destruct w as [s d fs iss out]. simpl in Hf. subst fs.
      simpl in Hrun. unfold mbind, M_bind, rows_Next, mret, M_ret in Hrun.
      by simplify_eq.
Qed.

(** ** Unresolved keys and malformed payloads *)

(** Whether a turn of the loop succeeds is a matter of the payload and of
    the driver alone. *)
Lemma migrateNotification_outcome tmap umap row w :
  (migrateNotification notifications_base tmap umap row w).1 =
  match Unmarshal float64 ParseFloat (r_message row) with
  | Ok outgoing =>
      match outgoing ≫= obj_get "message" with
      | Some (JObject inner) =>
          match driver_says w with
          | Some msg => Err (Wrap (driverError msg) notification_failed)
          | None => Ok tt
          end
      | entry =>
          Panic ("interface conversion: interface {} is "
                 +:+ dynamic_type entry +:+ ", not " +:+ mapType)
      end
  | Err e => Err (Wrap e notification_failed)
  | Panic msg => Panic msg
  end.
Proof.
  rewrite migrateNotification_eq.
  destruct (Unmarshal float64 ParseFloat (r_message row)) as [outgoing|e|msg]; try done.
  destruct (outgoing ≫= obj_get "message") as [[| | | | |inner]|]; try done.
  destruct (wrapping _ _ w) as [r w'] eqn:H. simpl.
  apply wrapping_run in H as (r0 & H & ->). apply Exec_run in H. cbv zeta in H.
  destruct (driver_says w); [by destruct H as [-> _]|].
  assert (apply_insert (row_statement tmap umap row) (dest w) =
          Some (add_notification (dest w) (row_record tmap umap row))) as Hins
    by reflexivity.
  rewrite Hins in H. by destruct H as [-> _].
Qed.


(** C4 (as the code has it). A payload that does not decode (malformed
    JSON, or JSON that is neither an object nor null) makes the turn of the
    loop return the decoder's error wrapped with the stage's message, in a
    world left as it was; the error says nothing of the notification but
    what the decoder says of the payload.  A payload that decodes but has
    no object under message (null and {} among them) makes the turn panic.
    A stage that meets either kind of payload does not succeed: a stage that
    succeeds has read and stored no row with such a payload, and when no
    database call fails the loop meets every row of the query. *)
Theorem C4_malformed_payload_fails_or_panics tmap umap row w :
  match Unmarshal float64 ParseFloat (r_message row) with
  | Err e =>
      migrateNotification notifications_base tmap umap row w =
      (Err (Wrap e notification_failed), w)
  | Ok outgoing =>
      match outgoing ≫= obj_get "message" with
      | Some (JObject _) => is_Some (outgoing_object row)
      | entry =>
          migrateNotification notifications_base tmap umap row w =
          (Panic ("interface conversion: interface {} is "
                  +:+ dynamic_type entry +:+ ", not " +:+ mapType), w)
      end
  | Panic _ => False
  end ∧
  (∀ w0 w',
     migrateNotifications w0 = (Ok tt, w') →
     outgoing_object row = None →
     ∃ tmap0 umap0 read,
       read `prefix_of` notification_query (source w0) ∧ (row ∉ read) ∧
       notifications (dest w') = row_record tmap0 umap0 <$> read) ∧
  (∀ w0 r w',
     migrateNotifications w0 = (r, w') → faults w0 = [] →
     row ∈ notification_query (source w0) → outgoing_object row = None →
     r ≠ Ok tt).
Proof.
  split; [|split].
  - rewrite migrateNotification_eq. unfold outgoing_object.
    destruct (Unmarshal float64 ParseFloat (r_message row)) as [[top|]|e|msg] eqn:HU;
      try done.
    + simpl. by destruct (obj_get "message" top) as [[| | | | |inner]|].
    + by destruct (Unmarshal_no_panic _ _ HU).
  - intros w0 w' H Hnone.
    apply migrateNotifications_rows in H
      as (read_t & read_u & attempted & applied & _ & _ & _ & Hp1 & _ & Hall & _ &
          _ & _ & Hn & _ & _ & Hempty & -> & _).
    rewrite Hempty in Hn. eexists _, _, applied. split; [done|]. split; [|done].
    intros Hrow. rewrite Forall_forall in Hall. specialize (Hall _ Hrow).
    rewrite Hnone in Hall. by destruct Hall.
  - intros w0 r w' H Hf Hrow Hnone ->.
    apply migrateNotifications_rows in H
      as (read_t & read_u & attempted & applied & _ & _ & _ & _ & _ & Hall & _ &
          _ & _ & _ & _ & _ & _ & -> & Hr).
    rewrite (Hr Hf) in Hall.
    rewrite Forall_forall in Hall. specialize (Hall _ Hrow). rewrite Hnone in Hall.
    by destruct Hall.
Qed.

(** ** Runs without a driver failure *)

Lemma Exec_no_faults st s d iss out d' :
  apply_insert st d = Some d' →
  Exec st {| source := s; dest := d; faults := []; issued := iss; stdout := out |} =
  (Ok tt, {| source := s; dest := d'; faults := []; issued := iss ++ [st];
             stdout := out |}).
Proof. intros H. unfold Exec, db_call, driver_says. simpl. by rewrite H. Qed.

Lemma bulk_stage_no_faults wrapMsg validateMsg notEmpty tbl column t
    (rows : World → list string) (add : DestDB → string → DestDB) s d iss out :
  let w := {| source := s; dest := d; faults := []; issued := iss; stdout := out |} in
  String.eqb tbl "" = false →
  (∀ names d, apply_insert (names_statement tbl column names) d =
              Some (foldl add d names)) →
  row_count t d = 0 → rows w ≠ [] →
  bulk_stage wrapMsg (validate t validateMsg notEmpty) (db_call ;; reading rows)
    tbl column w =
  (Ok tt, {| source := s; dest := foldl add d (rows w); faults := [];
             issued := iss ++ [names_statement tbl column (rows w)];
             stdout := out |}).
Proof.
  intros w Htbl Hins Hcount Hrows. subst w.
  unfold bulk_stage, validate, QueryRow_count.
  unfold mbind at 1. unfold M_bind at 1.
  unfold mbind at 1. unfold M_bind at 1.
  unfold wrapping at 1.
  unfold mbind at 1. unfold M_bind at 1.
  unfold db_call at 1. unfold reading at 1. unfold driver_says, after_call.
  simpl. rewrite Hcount. simpl. unfold mret at 1. unfold M_ret at 1.
  unfold mbind at 1. unfold M_bind at 1.
  unfold wrapping at 1.
  unfold mbind at 1. unfold M_bind at 1.
  unfold db_call at 1. unfold reading at 1. unfold driver_says, after_call.
  simpl. unfold set_faults. simpl.
  unfold mbind at 1. unfold M_bind at 1.
  rewrite (for_rows_pure_no_faults (λ b name, Values [VText name] b)).
  unfold mbind at 1. unfold M_bind at 1. unfold wrapping at 1. unfold pure.
  rewrite ToSql_names by done.
  destruct (rows _) as [|name names] eqn:Hr; [done|].
  unfold mbind at 1. unfold M_bind at 1. unfold wrapping at 1.
  rewrite (Exec_no_faults _ _ _ _ _ _ (Hins _ _)). done.
Qed.

Lemma migrateUsers_no_faults s d iss out :
  users d = [] → usernames s ≠ [] →
  migrateUsers {| source := s; dest := d; faults := []; issued := iss; stdout := out |} =
  (Ok tt, {| source := s; dest := foldl add_user d (usernames s); faults := [];
             issued := iss ++ [users_statement s]; stdout := out |}).
Proof.
  intros Hu Hn. rewrite migrateUsers_bulk_stage.
  apply (bulk_stage_no_faults _ _ _ _ _ Users (λ w, usernames (source w)) add_user);
    [done|apply insert_users|by rewrite <- length_zero_iff_nil in Hu|done].
Qed.

Lemma migrateNotificationTypes_no_faults s d iss out :
  notification_types d = [] → distinct_lower_types s ≠ [] →
  migrateNotificationTypes
    {| source := s; dest := d; faults := []; issued := iss; stdout := out |} =
  (Ok tt, {| source := s;
             dest := foldl add_notification_type d (distinct_lower_types s);
             faults := []; issued := iss ++ [notification_types_statement s];
             stdout := out |}).
Proof.
  intros Hu Hn. rewrite migrateNotificationTypes_bulk_stage.
  apply (bulk_stage_no_faults _ _ _ _ _ NotificationTypes
           (λ w, distinct_lower_types (source w)) add_notification_type);
    [done|apply insert_notification_types|by rewrite <- length_zero_iff_nil in Hu|done].
Qed.

Lemma for_rows_no_faults tmap umap rows s d iss out :
  Forall (λ row, is_Some (outgoing_object row)) rows →
  for_rows (λ row _, migrateNotification notifications_base tmap umap row) rows tt
    {| source := s; dest := d; faults := []; issued := iss; stdout := out |} =
  (Ok tt, {| source := s;
             dest := foldl add_notification d (row_record tmap umap <$> rows);
             faults := [];
             issued := iss ++ (row_statement tmap umap <$> rows);
             stdout := out |}).
Proof.
  revert d iss. induction rows as [|row rows IH]; intros d iss Hall.
  { simpl. by rewrite app_nil_r. }
  apply Forall_cons in Hall as [[o Ho] Hall]. cbn [for_rows].
  unfold mbind at 1. unfold M_bind at 1. unfold rows_Next, driver_says, after_call.
  simpl. unfold set_faults. simpl.
  unfold mbind at 1. unfold M_bind at 1. rewrite migrateNotification_eq.
  unfold outgoing_object in Ho.
  destruct (Unmarshal float64 ParseFloat (r_message row)) as [[top|]|e|msg];
    try done. simpl (_ ≫= obj_get _).
  destruct (obj_get "message" top) as [[| | | | |inner]|]; try done.
  unfold wrapping.
  rewrite (Exec_no_faults _ _ _ _ _
             (add_notification d (row_record tmap umap row))) by reflexivity.
  rewrite IH by done. by rewrite <- app_assoc.
Qed.

(** ** A destination that is not empty *)


(** ** The process *)

Ltac unfold_main :=
  unfold run_main, main, parseCommandLine, initDatabase, Begin_destTx,
    Commit_destTx, calling, exit_on_error, lifecycle_call, see_committed,
    make_committed, defer, Fprintf_stderr, os_Exit, run_deferred, set_proc_world,
    mbind, P_bind, mret, P_ret.

Lemma run_main_help cl p :
  help_called cl = true →
  run_main cl p =
  (0%Z, {| proc_world := proc_world p; committed := committed p;
           stderr := stderr p ++ [help_text cl]; calls := calls p;
           deferred := deferred p |}).
Proof. intros H. unfold_main. by rewrite H. Qed.

Lemma run_main_established cl p :
  help_called cl = false → established p →
  run_main cl p =
  match runMigration (migration_start p) with
  | (Ok _, w') =>
      match driver_says w' with
      | None =>
          (0%Z, {| proc_world := after_call w'; committed := dest w';
                   stderr := stderr p ++ usage_lines cl;
                   calls := calls p ++ setup_calls cl ++ [Commit_dest]
                              ++ cleanup_calls ++ deferred p;
                   deferred := [] |})
      | Some msg =>
          (1%Z, {| proc_world := after_call w'; committed := committed p;
                   stderr := stderr p ++ usage_lines cl ++
                     ["destination database commit failed: " +:+ msg +:+ newline];
                   calls := calls p ++ setup_calls cl ++ [Commit_dest];
                   deferred := cleanup_calls ++ deferred p |})
      end
  | (Err e, w') =>
      (1%Z, {| proc_world := w'; committed := committed p;
               stderr := stderr p ++ usage_lines cl ++ [Error e +:+ newline];
               calls := calls p ++ setup_calls cl;
               deferred := cleanup_calls ++ deferred p |})
  | (Panic msg, w') =>
      (2%Z, {| proc_world := w'; committed := committed p;
               stderr := stderr p ++ usage_lines cl ++ ["panic: " +:+ msg +:+ newline];
               calls := calls p ++ setup_calls cl ++ cleanup_calls ++ deferred p;
               deferred := [] |})
  end.
Proof.
  intros Hhelp (H1 & H2 & H3 & H4). unfold_main. rewrite Hhelp.
  unfold usage_lines, setup_calls, cleanup_calls, migration_start.
  destruct (parse_error cl) as [err|];
    cbn -[runMigration driver_says after_call String.append Error];
    rewrite H1; cbn -[runMigration driver_says after_call String.append Error];
    rewrite H2; cbn -[runMigration driver_says after_call String.append Error];
    rewrite H3; cbn -[runMigration driver_says after_call String.append Error];
    rewrite H4; cbn -[runMigration driver_says after_call String.append Error];
    (destruct (runMigration _) as [[[]|e|msg] w'];
     cbn -[driver_says after_call String.append Error];
     [destruct (driver_says w');
      cbn -[driver_says after_call String.append Error]| |]);
    rewrite <- ?app_assoc, ?app_nil_r; reflexivity.
Qed.

Lemma setup_failure_None p : setup_failure p = None ↔ established p.
Proof.
  unfold setup_failure, established.
  destruct (driver_says (proc_world p)); [naive_solver|].
  destruct (driver_says (after_call (proc_world p))); [naive_solver|].
  destruct (driver_says (after_call (after_call (proc_world p)))); [naive_solver|].
  destruct (driver_says (after_call (after_call (after_call (proc_world p)))));
    naive_solver.
Qed.

Lemma run_main_setup_failure cl p n line :
  help_called cl = false → setup_failure p = Some (n, line) →
  ∃ p', run_main cl p = (1%Z, p') ∧
        committed p' = committed p ∧
        stderr p' = stderr p ++ usage_lines cl ++ [line] ∧
        calls p' = calls p ++ take n (setup_calls cl) ∧
        proc_world p' = Nat.iter n after_call (proc_world p) ∧
        (1 ≤ n ≤ 4)%nat.
Proof.
  intros Hhelp Hfail. unfold_main. rewrite Hhelp.
  unfold usage_lines, setup_calls, setup_failure in *.
  destruct (parse_error cl) as [err|];
    cbn -[driver_says after_call String.append Error];
    (destruct (driver_says (proc_world p));
     cbn -[driver_says after_call String.append Error];
     [simplify_eq; eexists; split; [reflexivity|];
      cbn -[String.append]; rewrite <- ?app_assoc, ?app_nil_r;
      split_and!; (done || lia)|]);
    (destruct (driver_says (after_call (proc_world p)));
     cbn -[driver_says after_call String.append Error];
     [simplify_eq; eexists; split; [reflexivity|];
      cbn -[String.append]; rewrite <- ?app_assoc, ?app_nil_r;
      split_and!; (done || lia)|]);
    (destruct (driver_says (after_call (after_call (proc_world p))));
     cbn -[driver_says after_call String.append Error];
     [simplify_eq; eexists; split; [reflexivity|];
      cbn -[String.append]; rewrite <- ?app_assoc, ?app_nil_r;
      split_and!; (done || lia)|]);
    (destruct (driver_says (after_call (after_call (after_call (proc_world p)))));
     cbn -[driver_says after_call String.append Error];
     [simplify_eq; eexists; split; [reflexivity|];
      cbn -[String.append]; rewrite <- ?app_assoc, ?app_nil_r;
      split_and!; (done || lia)|done]).
Qed.

(** ** The two dictionaries *)

Lemma fill_map_last rows1 v k rows2 :
  k ∉ rows2.*2 → fill_map (rows1 ++ (v, k) :: rows2) !! k = Some v.
Proof.
  induction rows2 as [|[v' k'] rows2 IH] using rev_ind; intros Hk.
  - rewrite fill_map_snoc. apply lookup_insert_eq.
  - rewrite fmap_app, not_elem_of_app in Hk. destruct Hk as [Hk Hk'].
    rewrite app_comm_cons, app_assoc, fill_map_snoc. simpl.
    rewrite lookup_insert_ne; [by apply IH|]. simpl in Hk'. set_solver.
Qed.

Lemma fill_map_loaded_from {A : Type} (fid fname : A → string) (rows : list A) :
  loaded_from fid fname rows (fill_map ((λ x, (fid x, fname x)) <$> rows)).
Proof.
  split.
  - intros k. split.
    + intros [v Hv]. apply fill_map_lookup_Some, list_elem_of_fmap in Hv
        as (x & Heq & Hx). simplify_eq. by apply list_elem_of_fmap_2.
    + intros Hk. apply fill_map_lookup_is_Some. by rewrite <- list_fmap_compose.
  - intros l1 x l2 -> Hx. rewrite fmap_app, fmap_cons. apply fill_map_last.
    by rewrite <- list_fmap_compose.
Qed.

Lemma loaded_from_read {A : Type} (fid fname : A → string) (tbl : list A) fs :
  ∃ read, read `prefix_of` tbl ∧
          fill_map (delivered fs ((λ x, (fid x, fname x)) <$> tbl)) =
            fill_map ((λ x, (fid x, fname x)) <$> read) ∧
          loaded_from fid fname read
            (fill_map (delivered fs ((λ x, (fid x, fname x)) <$> tbl))) ∧
          (fs = [] → read = tbl).
Proof.
  exists (delivered fs tbl). rewrite delivered_fmap.
  split; [apply delivered_prefix|]. split; [done|].
  split; [apply fill_map_loaded_from|]. intros ->. apply delivered_nil.
Qed.

(** X1. getNotificationTypeIDMap and getUserIDMap change nothing in the
    destination and issue no statement.  They return an error only when
    their query fails, and then the driver's error wrapped with their
    message.  Otherwise they return the map of the rows their loop got from
    the stream, which can be fewer than the table has, since the loop is not
    followed by a look at rows.Err(): the keys of the map are the names of
    those rows, each standing for the identity of the last of them that has
    it.  When no database call fails, those rows are all the rows of the
    table. *)
Theorem X1_identity_maps_are_made_of_the_rows_read w :
  (∀ r w', getNotificationTypeIDMap w = (r, w') →
     dest w' = dest w ∧ issued w' = issued w ∧
     match r with
     | Ok m =>
         driver_says w = None ∧
         ∃ read, read `prefix_of` notification_types (dest w) ∧
                 loaded_from nt_id nt_name read m ∧
                 (faults w = [] → read = notification_types (dest w))
     | Err e =>
         ∃ msg, driver_says w = Some msg ∧
                e = Wrap (driverError msg) "unable to load the notification type ID map"
     | Panic _ => False
     end) ∧
  (∀ r w', getUserIDMap w = (r, w') →
     dest w' = dest w ∧ issued w' = issued w ∧
     match r with
     | Ok m =>
         driver_says w = None ∧
         ∃ read, read `prefix_of` users (dest w) ∧
                 loaded_from du_id du_username read m ∧
                 (faults w = [] → read = users (dest w))
     | Err e =>
         ∃ msg, driver_says w = Some msg ∧
                e = Wrap (driverError msg) "unable to laod the user ID map"
     | Panic _ => False
     end).
Proof.
  split; intros r w' H; apply get_map_run in H as (_ & Hd & Hi & _ & _ & H);
    (split; [done|]; split; [done|]);
    (destruct (driver_says w) as [msg|]; subst r; [by exists msg|]);
    (split; [done|]); simpl.
  - destruct (loaded_from_read nt_id nt_name (notification_types (dest w))
                (drop 1 (faults w))) as (read & Hp & _ & Hl & Hall).
    exists read. split_and!; try done. intros Hf. apply Hall. by rewrite Hf.
  - destruct (loaded_from_read du_id du_username (users (dest w))
                (drop 1 (faults w))) as (read & Hp & _ & Hl & Hall).
    exists read. split_and!; try done. intros Hf. apply Hall. by rewrite Hf.
Qed.

(** ** The user stage *)


(** ** The statements of a run *)

Lemma runMigration_issued w r w' :
  runMigration w = (r, w') →
  ∃ names types tmap umap rows done,
    names `prefix_of` usernames (source w) ∧
    types `prefix_of` distinct_lower_types (source w) ∧
    rows `prefix_of` notification_query (source w) ∧
    issued w' = issued w ++ done ∧
    done `prefix_of`
      (names_statement "users" "username" names ::
       names_statement "notification_types" "name" types ::
       (row_statement tmap umap <$> rows)) ∧
    (names = [] → done = []) ∧
    (types = [] → (length done ≤ 1)%nat) ∧
    (r = Ok tt →
     done = names_statement "users" "username" names ::
            names_statement "notification_types" "name" types ::
            (row_statement tmap umap <$> rows)).
Proof.
  rewrite runMigration_eq. intros H.
  pose proof (migrateUsers_run (printed "Migrating users..." w)) as H1.
  cbv zeta in H1.
  set (names := read_usernames (printed "Migrating users..." w)) in *.
  assert (names `prefix_of` usernames (source w)) as Hpn by apply delivered_prefix.
  destruct (migrateUsers _) as [[[]|e1|msg] w2]; [| |done].
  2:{ simplify_eq. destruct H1 as (_ & _ & _ & _ & Hi & _). simpl in Hi.
      destruct Hi as [->|(_ & Hne & ->)].
      - exists names, [], ∅, ∅, [], []. rewrite app_nil_r.
        split_and!; try done; try apply prefix_nil. simpl. lia.
      - exists names, [], ∅, ∅, [], [names_statement "users" "username" names].
        split_and!; try done; try apply prefix_nil.
        by apply prefix_cons, prefix_nil. }
  destruct H1 as (_ & Hne2 & _ & Hi2 & Hs2 & _). simpl in Hi2, Hs2.
  pose proof (migrateNotificationTypes_run (printed "Migrating notification types..." w2))
    as H3. cbv zeta in H3.
  set (types := read_types (printed "Migrating notification types..." w2)) in *.
  assert (types `prefix_of` distinct_lower_types (source w)) as Hpt.
  { unfold types, read_types. simpl. rewrite Hs2. apply delivered_prefix. }
  destruct (migrateNotificationTypes _) as [[[]|e3|msg] w4]; [| |done].
  2:{ simplify_eq. destruct H3 as (_ & _ & _ & _ & Hi & _). simpl in Hi.
      rewrite Hi2 in Hi. destruct Hi as [->|(_ & Hne & ->)].
      - exists names, [], ∅, ∅, [], [names_statement "users" "username" names].
        split_and!; try done; try apply prefix_nil.
        by apply prefix_cons, prefix_nil.
      - rewrite <- app_assoc.
        exists names, types, ∅, ∅, [],
          [names_statement "users" "username" names;
           names_statement "notification_types" "name" types].
        split_and!; try done; try apply prefix_nil. }
  destruct H3 as (_ & Hne4 & _ & Hi4 & Hs4 & _). simpl in Hi4, Hs4.
  rewrite Hi2 in Hi4.
  destruct (migrateNotifications _) as [r6 w6] eqn:H5.
  apply migrateNotifications_rows in H5
    as (read_t & read_u & attempted & applied & _ & _ & _ & Hp1 & _ & _ & Hi &
        _).
  simpl in Hp1, Hi. rewrite Hs4, Hs2 in Hp1. rewrite Hi4, <- !app_assoc in Hi.
  assert (issued w' = issued w6) as -> by (destruct r6 as [[]|?|?]; by simplify_eq).
  eexists names, types, _, _, attempted, _.
  split_and!; [done|done|done|exact Hi|simpl; reflexivity| | |done];
    intros Hnil; by subst.
Qed.

(** X4. Whatever its outcome, the statements runMigration has passed to
    Exec are, in this order: at most one insert into users, at most one
    insert into notification_types, and single-row inserts into
    notifications, a later one being there only if the ones before it are.
    The insert into users carries the first of the source usernames; the
    insert into notification_types carries lower-cased type strings of the
    source, none of them twice; the inserts into notifications are those of
    the first rows of the notification query, one each.  A run that
    succeeds has issued the two inserts of the first two kinds. *)
Theorem X4_statements_of_a_run_in_order w r w' :
  runMigration w = (r, w') →
  ∃ names types tmap umap rows done,
    issued w' = issued w ++ done ∧
    done `prefix_of`
      ({| st_into := "users"; st_columns := ["username"];
          st_rows := (λ name, [VText name]) <$> names |} ::
       {| st_into := "notification_types"; st_columns := ["name"];
          st_rows := (λ name, [VText name]) <$> types |} ::
       (row_statement tmap umap <$> rows)) ∧
    names `prefix_of` (su_username <$> source_users (source w)) ∧
    NoDup types ∧
    (∀ name, name ∈ types →
       name ∈ (λ n, lower (sn_type n)) <$> source_notifications (source w)) ∧
    rows `prefix_of` notification_query (source w) ∧
    (names = [] → done = []) ∧
    (types = [] → (length done ≤ 1)%nat) ∧
    (r = Ok tt → (2 ≤ length done)%nat ∧ names ≠ [] ∧ types ≠ []).
Proof.
  intros H.
  destruct (runMigration_issued _ _ _ H)
    as (names & types & tmap & umap & rows & done & Hpn & Hpt & Hpr & Hi & Hp &
        Hn0 & Ht0 & Hok).
  exists names, types, tmap, umap, rows, done. split_and!; try done.
  - apply (prefix_NoDup _ _ Hpt), NoDup_remove_dups.
  - intros name Hname. by apply elem_of_remove_dups, (prefix_elem_of _ _ _ Hpt).
  - intros Hr. specialize (Hok Hr). split_and!.
    + rewrite Hok. simpl. lia.
    + intros Hnil. rewrite (Hn0 Hnil) in Hok. done.
    + intros Hnil. specialize (Ht0 Hnil). rewrite Hok in Ht0. simpl in Ht0. lia.
Qed.

(** ** A failure in the loop *)


(** ** Success *)

Lemma runMigration_no_faults w :
  faults w = [] →
  users (dest w) = [] → notification_types (dest w) = [] →
  notifications (dest w) = [] →
  usernames (source w) ≠ [] → distinct_lower_types (source w) ≠ [] →
  Forall (λ row, is_Some (outgoing_object row)) (notification_query (source w)) →
  runMigration w = (Ok tt, migrated w).
Proof.
  destruct w as [s d fs iss out]. simpl. intros -> Hu Ht Hn Hsu Hsn Hall.
  rewrite runMigration_eq. unfold printed, set_stdout. simpl.
  rewrite migrateUsers_no_faults by done. unfold set_stdout. simpl.
  destruct (foldl_add_user d (usernames s)) as (_ & Ht2 & Hn2 & _).
  rewrite migrateNotificationTypes_no_faults by (by rewrite ?Ht2).
  unfold set_stdout. simpl.
  destruct (foldl_add_notification_type (foldl add_user d (usernames s))
              (distinct_lower_types s)) as (_ & _ & Hn4 & _).
  rewrite migrateNotifications_no_faults by (simpl; by rewrite ?Hn4, ?Hn2). simpl.
  rewrite for_rows_no_faults by done.
  unfold migrated, planned_statements, staged_dest, progress_lines. simpl.
  by rewrite <- !app_assoc.
Qed.

(** What a run that succeeds with no failing call says of the source. *)
Lemma runMigration_Ok_source w w' :
  faults w = [] →
  runMigration w = (Ok tt, w') →
  usernames (source w) ≠ [] ∧ distinct_lower_types (source w) ≠ [] ∧
  Forall (λ row, is_Some (outgoing_object row)) (notification_query (source w)).
Proof.
  intros Hf H. apply runMigration_Ok in H
    as (_ & _ & _ & d & read_t & read_u & rows & Hnames & Hune & Htne & _ & _ & _ &
        _ & Hall & _ & _ & _ & Hfd).
  destruct (Hfd Hf) as (Htypes & _ & _ & ->). split_and!; [| |done].
  - intros Hnil. unfold read_usernames in Hnames. simpl in Hnames.
    rewrite Hnil in Hnames. by destruct (users d).
  - rewrite <- Htypes. by destruct (notification_types d).
Qed.

(** X6. When no database call fails, runMigration succeeds just when the
    three destination tables are empty, the source has a user and a
    notification, and the payload of every notification that has a user
    decodes to an object with an object under message.  A run that
    succeeds has issued the statements of its plan, stored what they carry
    and printed its three progress lines. *)
Theorem X6_success_without_driver_failure w :
  faults w = [] →
  ((∃ w', runMigration w = (Ok tt, w')) ↔
   users (dest w) = [] ∧ notification_types (dest w) = [] ∧
   notifications (dest w) = [] ∧
   source_users (source w) ≠ [] ∧ source_notifications (source w) ≠ [] ∧
   Forall (λ row, is_Some (outgoing_object row)) (notification_query (source w))) ∧
  (∀ w', runMigration w = (Ok tt, w') → w' = migrated w).
Proof.
  intros Hf.
  assert (∀ w', runMigration w = (Ok tt, w') →
    users (dest w) = [] ∧ notification_types (dest w) = [] ∧
    notifications (dest w) = [] ∧
    usernames (source w) ≠ [] ∧ distinct_lower_types (source w) ≠ [] ∧
    Forall (λ row, is_Some (outgoing_object row)) (notification_query (source w)))
    as Hok.
  { intros w' H. destruct (runMigration_Ok_source _ _ Hf H) as (? & ? & ?).
    apply runMigration_Ok in H as (? & ? & ? & _). done. }
  split; [split|].
  - intros [w' H]. destruct (Hok _ H) as (Hu & Ht & Hn & Hsu & Hsn & Hall).
    repeat split; try done.
    + intros Hnil. apply Hsu. unfold usernames. by rewrite Hnil.
    + intros Hnil. apply Hsn. unfold distinct_lower_types. by rewrite Hnil.
  - intros (Hu & Ht & Hn & Hsu & Hsn & Hall). exists (migrated w).
    apply runMigration_no_faults; try done.
    + intros Hnil. by apply fmap_nil_inv in Hnil.
    + intros Hnil. by apply remove_dups_nil_inv, fmap_nil_inv in Hnil.
  - intros w' H. destruct (Hok _ H) as (Hu & Ht & Hn & Hsu & Hsn & Hall).
    rewrite runMigration_no_faults in H by done. by simplify_eq.
Qed.

(** ** A second run *)

Lemma runMigration_users_not_empty w r w' :
  users (dest w) ≠ [] → runMigration w = (r, w') →
  (∃ e, r = Err e ∧
        (driver_says w = None →
         e = Wrap (Wrap (errorString users_not_empty) "user migration failed")
               migration_failed)) ∧
  dest w' = dest w ∧ issued w' = issued w.
Proof.
  rewrite runMigration_eq. intros Hne H.
  pose proof (migrateUsers_run (printed "Migrating users..." w)) as H1.
  cbv zeta in H1.
  destruct (migrateUsers _) as [[[]|e1|msg] w2]; [by destruct H1| |done].
  simplify_eq. destruct H1 as (_ & Hd & _ & _ & Hi & He). simpl in *.
  split; [|split; [done|by destruct Hi as [?|(? & _)]]].
  eexists. split; [done|]. intros Hs. by rewrite He.
Qed.

(** X7. A run that has succeeded cannot be repeated: run again on the
    destination it has left, whether in the same transaction or after a
    commit, runMigration returns an error, issues no statement and leaves
    the destination as it is; when its count query succeeds, the error is
    that the users table is not empty. *)
Theorem X7_second_run_fails_before_any_write w w' w2 r w3 :
  runMigration w = (Ok tt, w') →
  dest w2 = dest w' →
  runMigration w2 = (r, w3) →
  (∃ e, r = Err e ∧
        (driver_says w2 = None →
         e = Wrap (Wrap (errorString users_not_empty) "user migration failed")
               migration_failed)) ∧
  dest w3 = dest w2 ∧ issued w3 = issued w2.
Proof.
  intros H Hd H2. apply (runMigration_users_not_empty w2); [|done].
  apply runMigration_Ok in H
    as (_ & _ & _ & d & read_t & read_u & rows & _ & Hne & _ & _ & _ & _ & _ & _ &
        Hu & _).
  by rewrite Hd, Hu.
Qed.

(** ** The exit status *)

Lemma iter_after_call n w :
  source (Nat.iter n after_call w) = source w ∧
  dest (Nat.iter n after_call w) = dest w ∧
  issued (Nat.iter n after_call w) = issued w ∧
  stdout (Nat.iter n after_call w) = stdout w.
Proof. induction n as [|n IH]; [done|]. simpl. exact IH. Qed.

Lemma runMigration_Err w e w' :
  runMigration w = (Err e, w') →
  ∃ stage cause, e = Wrap (Wrap cause stage) migration_failed ∧
                 stage ∈ stage_messages.
Proof.
  rewrite runMigration_eq. intros H.
  pose proof (migrateUsers_run (printed "Migrating users..." w)) as H1.
  cbv zeta in H1.
  destruct (migrateUsers _) as [[[]|e1|msg] w2]; [| |done].
  2:{ destruct H1 as [[cause ->] _]. simplify_eq. eexists _, cause.
      split; [done|]. set_solver. }
  pose proof (migrateNotificationTypes_run (printed "Migrating notification types..." w2))
    as H3. cbv zeta in H3.
  destruct (migrateNotificationTypes _) as [[[]|e3|msg] w4]; [| |done].
  2:{ destruct H3 as [[cause ->] _]. simplify_eq. eexists _, cause.
      split; [done|]. set_solver. }
  destruct (migrateNotifications _) as [[[]|e5|msg] w6] eqn:H5; [done| |done].
  apply migrateNotifications_rows in H5
    as (? & ? & ? & ? & _ & _ & _ & _ & _ & _ & _ & _ & _ & _ & _ & _ & cause & ->).
  simplify_eq. eexists _, cause. split; [done|]. set_solver.
Qed.

(** X8. The process exits with 0, 1 or 2, and the committed destination
    changes in no process that exits with 1 or 2.  A process exits with 0
    in two cases only: help was called, and then no database call was made;
    or the two connections and the two transactions were established,
    runMigration returned no error and the commit of the destination
    transaction succeeded, and then the committed destination is the one
    runMigration left. *)
Theorem X8_exit_status_and_commit cl p code p' :
  run_main cl p = (code, p') →
  (code = 0 ∨ code = 1 ∨ code = 2)%Z ∧
  (code ≠ 0%Z → committed p' = committed p) ∧
  (code = 0%Z →
   help_called cl = true ∧ committed p' = committed p ∧ calls p' = calls p ∨
   help_called cl = false ∧ established p ∧
   ∃ w', runMigration (migration_start p) = (Ok tt, w') ∧
         driver_says w' = None ∧ committed p' = dest w').
Proof.
  intros H. destruct (help_called cl) eqn:Hhelp.
  { rewrite run_main_help in H by done. simplify_eq. simpl.
    split; [by left|]. split; [done|]. intros _. by left. }
  destruct (setup_failure p) as [[n line]|] eqn:Hs.
  { destruct (run_main_setup_failure _ _ _ _ Hhelp Hs) as (p1 & Hrun & Hc & _).
    rewrite Hrun in H. simplify_eq. split; [by right; left|]. by split. }
  apply setup_failure_None in Hs. rewrite run_main_established in H by done.
  destruct (runMigration (migration_start p)) as [[[]|e|msg] w1] eqn:Hm.
  - destruct (driver_says w1) eqn:Hd; simplify_eq; simpl.
    + split; [by right; left|]. by split.
    + split; [by left|]. split; [done|]. intros _. right.
      split; [done|]. split; [done|]. by exists w1.
  - simplify_eq. simpl. split; [by right; left|]. by split.
  - simplify_eq. simpl. split; [by right; right|]. by split.
Qed.

(** X9. The four deferred calls (the two rollbacks, then the two closes)
    run only in a process that leaves main by its end or by a panic.  When
    help is not called: a process that exits with 0 has made the four
    set-up calls, the commit and then the four deferred calls; one that
    exits with 2 has made the set-up calls and then the deferred calls,
    without a commit; one that exits with 1 has made a first part of the
    set-up calls and the commit, and none of the deferred calls. *)
Theorem X9_exit_skips_the_deferred_calls cl p code p' :
  run_main cl p = (code, p') →
  help_called cl = false →
  (code = 0%Z →
   calls p' = calls p ++ setup_calls cl ++ [Commit_dest] ++ cleanup_calls
                ++ deferred p) ∧
  (code = 2%Z →
   calls p' = calls p ++ setup_calls cl ++ cleanup_calls ++ deferred p) ∧
  (code = 1%Z →
   ∃ n, (1 ≤ n)%nat ∧
        calls p' = calls p ++ take n (setup_calls cl ++ [Commit_dest])).
Proof.
  intros H Hhelp.
  destruct (setup_failure p) as [[n line]|] eqn:Hs.
  { destruct (run_main_setup_failure _ _ _ _ Hhelp Hs)
      as (p1 & Hrun & _ & _ & Hc & _ & Hn1 & Hn4).
    rewrite Hrun in H. simplify_eq. split; [done|]. split; [done|].
    intros _. exists n. split; [done|]. rewrite Hc. f_equal.
    rewrite take_app_le; [done|]. simpl. lia. }
  apply setup_failure_None in Hs. rewrite run_main_established in H by done.
  destruct (runMigration (migration_start p)) as [[[]|e|msg] w1] eqn:Hm.
  - destruct (driver_says w1) eqn:Hd; simplify_eq; simpl.
    + split; [done|]. split; [done|]. intros _. exists 5. split; [lia|done].
    + done.
  - simplify_eq. simpl. split; [done|]. split; [done|]. intros _.
    exists 4. split; [lia|done].
  - simplify_eq. simpl. done.
Qed.

(** X10. When the transactions are established and runMigration returns an
    error, main writes to standard error one line, made of the message of
    the run, the message of the stage that failed and the text of the
    cause, and exits with 1: the commit is not called and the committed
    destination is as it was. *)
Theorem X10_migration_error_is_reported_not_committed cl p e w' :
  help_called cl = false → established p →
  runMigration (migration_start p) = (Err e, w') →
  ∃ p' stage cause,
    run_main cl p = (1%Z, p') ∧
    stage ∈ stage_messages ∧
    e = Wrap (Wrap cause stage) "database migration failed" ∧
    stderr p' = stderr p ++ usage_lines cl ++
      ["database migration failed: " +:+ stage +:+ ": " +:+ Error cause +:+ newline] ∧
    calls p' = calls p ++ setup_calls cl ∧
    committed p' = committed p.
Proof.
  intros Hhelp Hest Hm. rewrite run_main_established, Hm by done.
  destruct (runMigration_Err _ _ _ Hm) as (stage & cause & -> & Hstage).
  eexists _, stage, cause. split; [done|]. split; [done|]. split; [done|].
  split; [|done]. simpl. do 3 f_equal.
  unfold stage_messages in Hstage.
  repeat (apply elem_of_cons in Hstage as [->|Hstage]; [reflexivity|]).
  by apply elem_of_nil in Hstage.
Qed.

(** X11. A call for help ends the process with 0 once the help text is
    written, before any database call, even if the parse has failed.  A
    usage error without a call for help does not end the process: main
    writes the error and the synopsis and goes on to connect to the source
    database with the value stored for the option. *)
Theorem X11_usage_error_does_not_stop_main cl p code p' :
  run_main cl p = (code, p') →
  (help_called cl = true →
   code = 0%Z ∧ stderr p' = stderr p ++ [help_text cl] ∧ calls p' = calls p) ∧
  (help_called cl = false →
   ∀ err, parse_error cl = Some err →
   ∃ more_lines more_calls,
     stderr p' = stderr p ++
       ["Error: " +:+ Error err +:+ newline +:+ newline; synopsis_text cl]
       ++ more_lines ∧
     calls p' = calls p ++ Connect "postgres" (source_option cl) :: more_calls).
Proof.
  intros H. split.
  { intros Hhelp. rewrite run_main_help in H by done. by simplify_eq. }
  intros Hhelp err Herr.
  assert (usage_lines cl =
          ["Error: " +:+ Error err +:+ newline +:+ newline; synopsis_text cl])
    as Hlines by (unfold usage_lines; by rewrite Herr).
  rewrite <- Hlines.
  destruct (setup_failure p) as [[n line]|] eqn:Hs.
  { destruct (run_main_setup_failure _ _ _ _ Hhelp Hs)
      as (p1 & Hrun & _ & He & Hc & _ & Hn1 & _).
    rewrite Hrun in H. simplify_eq. destruct n as [|n]; [lia|].
    eexists [line], _. split; [done|]. by rewrite Hc. }
  apply setup_failure_None in Hs. rewrite run_main_established in H by done.
  destruct (runMigration (migration_start p)) as [[[]|e|msg] w1] eqn:Hm;
    [destruct (driver_says w1) eqn:Hd|..]; simplify_eq; simpl.
  - by eexists _, _.
  - eexists [], _. by rewrite app_nil_r.
  - by eexists _, _.
  - by eexists _, _.
Qed.

(** X12. When one of the four set-up calls fails (the two connections, then
    the two Begin), main makes no call after it: it writes one line, which
    names the database and, for a connection, says that the database could
    not be initialized, and exits with 1.  runMigration is not called:
    nothing is printed, no statement is issued and the committed
    destination is as it was. *)
Theorem X12_setup_failure_ends_the_process cl p n line :
  help_called cl = false →
  setup_failure p = Some (n, line) →
  ∃ p', run_main cl p = (1%Z, p') ∧
        stderr p' = stderr p ++ usage_lines cl ++ [line] ∧
        calls p' = calls p ++ take n (setup_calls cl) ∧
        (n ≤ 4)%nat ∧
        committed p' = committed p ∧
        stdout (proc_world p') = stdout (proc_world p) ∧
        issued (proc_world p') = issued (proc_world p).
Proof.
  intros Hhelp Hs.
  destruct (run_main_setup_failure _ _ _ _ Hhelp Hs)
    as (p1 & Hrun & Hcm & He & Hc & Hw & _ & Hn4).
  exists p1. rewrite Hw.
  destruct (iter_after_call n (proc_world p)) as (_ & _ & Hi & Ho).
  done.
Qed.

(** ** The columns of a notification *)


End Migration.

(** * The properties on the sample databases *)

Ltac conjuncts := repeat match goal with |- _ ∧ _ => split end.

(** In what follows a number of a payload is kept as its literal:
    [float64] is [string], with [Some] and [id] as its two conversions. *)


(** Against C2 as stated: with no source user the user stage fails. *)
Lemma C2_counterexample :
  usernames (source (world empty_source empty_dest)) = [] ∧
  (migrateUsers (world empty_source empty_dest)).1 =
    Err (Wrap (errorString no_values) "user migration failed") ∧
  distinct_lower_types (source (world empty_source empty_dest)) = [] ∧
  (migrateNotificationTypes (world empty_source empty_dest)).1 =
    Err (Wrap (errorString no_values) "notification type migration failed").
Proof. conjuncts; by vm_compute. Qed.

(** C2 as the code has it, on the empty source and the empty destination. *)
Lemma C2_witness :
  let w := world empty_source empty_dest in
  (usernames (source w) = [] →
   ∃ e w', migrateUsers w = (Err e, w') ∧ dest w' = dest w ∧ issued w' = issued w ∧
     (faults w = [] → users (dest w) = [] →
      e = Wrap (errorString no_values) "user migration failed")) ∧
  (distinct_lower_types (source w) = [] →
   ∃ e w', migrateNotificationTypes w = (Err e, w') ∧
     dest w' = dest w ∧ issued w' = issued w ∧
     (faults w = [] → notification_types (dest w) = [] →
      e = Wrap (errorString no_values) "notification type migration failed")) ∧
  (notification_query (source w) = [] →
   ∃ r w', migrateNotifications string Some id w = (r, w') ∧
     dest w' = dest w ∧ issued w' = issued w ∧
     (faults w = [] → notifications (dest w) = [] → r = Ok tt)) ∧
  usernames (source w) = [] ∧ distinct_lower_types (source w) = [] ∧
  notification_query (source w) = [] ∧ faults w = [] ∧
  (migrateNotifications string Some id w).1 = Ok tt.
Proof.
  cbv zeta.
  destruct (C2_zero_source_rows string Some id (world empty_source empty_dest))
    as (H1 & H2 & H3).
  repeat split; try done.
Defined.



(** Against C4 as stated: a payload that is an object without message
    makes the stage panic. *)
Lemma C4_counterexample :
  let w := world (sample_source "{}") empty_dest in
  r_id <$> notification_query (source w) = ["abc-123"] ∧
  Unmarshal string Some "{}" = Ok (Some []) ∧
  (migrateNotifications string Some id w).1 =
    Panic "interface conversion: interface {} is nil, not map[string]interface {}".
Proof. cbv zeta. conjuncts; by vm_compute. Qed.

(** C4 as the code has it, on the payload {}: the turn of the loop panics
    and the stage does not succeed. *)
Lemma C4_witness :
  let w := world (sample_source "{}") empty_dest in
  let row := select_row (info_notification "{}") alice in
  row ∈ notification_query (source w) ∧
  outgoing_object string Some row = None ∧
  migrateNotification string Some id notifications_base ∅ ∅ row w =
    (Panic "interface conversion: interface {} is nil, not map[string]interface {}", w) ∧
  (migrateNotifications string Some id w).1 ≠ Ok tt.
Proof.
  cbv zeta.
  destruct (C4_malformed_payload_fails_or_panics string Some id ∅ ∅
              (select_row (info_notification "{}") alice)
              (world (sample_source "{}") empty_dest)) as (H1 & _ & H3).
  assert (select_row (info_notification "{}") alice
          ∈ notification_query (source (world (sample_source "{}") empty_dest)))
    as Hrow by (vm_compute; by left).
  split; [done|]. split; [by vm_compute|]. split; [exact H1|].
  apply (H3 (world (sample_source "{}") empty_dest) _
            (migrateNotifications string Some id
               (world (sample_source "{}") empty_dest)).2);
    [apply surjective_pairing|done|done|by vm_compute].
Defined.



(** C6 on a source with two notifications, the later one first in its table. *)
Lemma C6_witness :
  let w := world two_source empty_dest in
  let run := migrateNotifications string Some id w in
  run.1 = Ok tt ∧ creation_times (issued run.2) = [1000%Z; 2000%Z] ∧
  ∃ attempted stmts,
    issued run.2 = issued w ++ stmts ∧
    attempted `prefix_of` notification_query (source w) ∧
    (run.1 = Ok tt → faults w = [] → attempted = notification_query (source w)) ∧
    Forall2 (λ row st,
       st_into st = "notifications" ∧
       ∃ values, st_rows st = [values] ∧ values !! 0 = Some (VText (r_id row)) ∧
                 created_time values = [r_timeCreated row])
      attempted stmts ∧
    StronglySorted Z.le (creation_times stmts).
Proof.
  cbv zeta. split; [by vm_compute|]. split; [by vm_compute|].
  eapply (C6_inserts_in_creation_order_one_row_each string Some id).
  apply surjective_pairing.
Defined.

(** Against C7 as stated: the stream of the distinct lower-cased types
    breaks after its first row; the stage returns no error and has stored
    one of the two names. *)
Lemma C7_counterexample :
  let w := breaking 3 (world orphan_source empty_dest) in
  let run := migrateNotificationTypes w in
  let lowered := (λ n, lower (sn_type n)) <$> source_notifications (source w) in
  run.1 = Ok tt ∧
  lowered = ["warning"; "info"] ∧
  nt_name <$> notification_types (dest run.2) = ["warning"] ∧
  length (notification_types (dest run.2)) = 1 ∧
  size (list_to_set lowered : gset string) = 2.
Proof. cbv zeta. conjuncts; by vm_compute. Qed.


(** Against C8 as stated: the stream of the type dictionary breaks before
    its first row; the run returns no error, and the notification it has
    stored carries as notification_type_id the empty string, the identity
    of no stored notification type. *)
Lemma C8_counterexample :
  let w := breaking 12 sample_world in
  let run := runMigration string Some id w in
  run.1 = Ok tt ∧
  nt_id <$> notification_types (dest run.2) = ["id-1"] ∧
  dn_notification_type_id <$> notifications (dest run.2) = [""] ∧
  dn_user_id <$> notifications (dest run.2) = ["id-0"].
Proof. cbv zeta. conjuncts; by vm_compute. Qed.


(** Against C10 as stated: the stream of the notifications breaks after its
    first row; the stage returns no error and has stored one row, while two
    source notifications have a user. *)
Lemma C10_counterexample :
  let w := breaking 8 (world two_source empty_dest) in
  let run := migrateNotifications string Some id w in
  run.1 = Ok tt ∧
  length (filter (has_user (source w)) (source_notifications (source w))) = 2 ∧
  length (notifications (dest run.2)) = 1 ∧
  dn_id <$> notifications (dest run.2) = ["abc-123"].
Proof. cbv zeta. conjuncts; by vm_compute. Qed.


(** X1 on a destination with the users alice and bob, the stream breaking
    after alice: the map has alice alone, and there is no error. *)
Lemma X1_witness :
  let w := breaking 2 (world (sample_source hi_payload) two_users_dest) in
  let run := getUserIDMap w in
  (∃ m, run.1 = Ok m ∧ m !! "alice" = Some "id-0" ∧ m !! "bob" = None) ∧
  dest run.2 = dest w ∧ issued run.2 = issued w ∧
  match run.1 with
  | Ok m =>
      driver_says w = None ∧
      ∃ read, read `prefix_of` users (dest w) ∧
              loaded_from du_id du_username read m ∧
              (faults w = [] → read = users (dest w))
  | Err e =>
      ∃ msg, driver_says w = Some msg ∧
             e = Wrap (driverError msg) "unable to laod the user ID map"
  | Panic _ => False
  end.
Proof.
  cbv zeta. split; [eexists; by vm_compute|].
  apply (proj2 (X1_identity_maps_are_made_of_the_rows_read string Some
                  (breaking 2 (world (sample_source hi_payload) two_users_dest)))).
  apply surjective_pairing.
Defined.


(** X4 on the sample world with a driver that fails the query of the
    types: the run has issued the insert into users and nothing else. *)
Lemma X4_witness :
  let w := breaking 6 sample_world in
  let run := runMigration string Some id w in
  run.1 = Err (Wrap (Wrap (driverError "unexpected EOF")
                       "notification type migration failed") migration_failed) ∧
  issued run.2 = [users_statement (source w)] ∧
  ∃ names types tmap umap rows done,
    issued run.2 = issued w ++ done ∧
    done `prefix_of`
      ({| st_into := "users"; st_columns := ["username"];
          st_rows := (λ name, [VText name]) <$> names |} ::
       {| st_into := "notification_types"; st_columns := ["name"];
          st_rows := (λ name, [VText name]) <$> types |} ::
       (row_statement string Some id tmap umap <$> rows)) ∧
    names `prefix_of` (su_username <$> source_users (source w)) ∧
    NoDup types ∧
    (∀ name, name ∈ types →
       name ∈ (λ n, lower (sn_type n)) <$> source_notifications (source w)) ∧
    rows `prefix_of` notification_query (source w) ∧
    (names = [] → done = []) ∧
    (types = [] → (length done ≤ 1)%nat) ∧
    (run.1 = Ok tt → (2 ≤ length done)%nat ∧ names ≠ [] ∧ types ≠ []).
Proof.
  cbv zeta. do 2 (split; [by vm_compute|]).
  apply (X4_statements_of_a_run_in_order string Some id).
  apply surjective_pairing.
Defined.


(** X6 on the sample world, where no database call fails: the run succeeds. *)
Lemma X6_witness :
  let w := sample_world in
  (runMigration string Some id w).1 = Ok tt ∧
  ((∃ w', runMigration string Some id w = (Ok tt, w')) ↔
   users (dest w) = [] ∧ notification_types (dest w) = [] ∧
   notifications (dest w) = [] ∧
   source_users (source w) ≠ [] ∧ source_notifications (source w) ≠ [] ∧
   Forall (λ row, is_Some (outgoing_object string Some row))
     (notification_query (source w))) ∧
  (∀ w', runMigration string Some id w = (Ok tt, w') →
         w' = migrated string Some id w).
Proof.
  cbv zeta. split; [by vm_compute|].
  apply (X6_success_without_driver_failure string Some id sample_world).
  reflexivity.
Defined.

(** X7 on the sample world: the run succeeds, and a second run on what it
    has left fails at the users table. *)
Lemma X7_witness :
  let run := runMigration string Some id sample_world in
  let again := runMigration string Some id run.2 in
  run.1 = Ok tt ∧
  again.1 = Err (Wrap (Wrap (errorString users_not_empty) "user migration failed")
                   migration_failed) ∧
  (∃ e, again.1 = Err e ∧
        (driver_says run.2 = None →
         e = Wrap (Wrap (errorString users_not_empty) "user migration failed")
               migration_failed)) ∧
  dest again.2 = dest run.2 ∧ issued again.2 = issued run.2.
Proof.
  cbv zeta. do 2 (split; [by vm_compute|]).
  apply (X7_second_run_fails_before_any_write string Some id sample_world
           (runMigration string Some id sample_world).2).
  - by vm_compute.
  - reflexivity.
  - apply surjective_pairing.
Defined.

(** X8 on the sample process: it exits with 0 and the migrated
    notification is committed. *)
Lemma X8_witness :
  let cl := sample_command_line in
  let p := process sample_world in
  let run := run_main string Some id cl p in
  run.1 = 0%Z ∧
  notifications (committed p) = [] ∧
  dn_id <$> notifications (committed run.2) = ["abc-123"] ∧
  (run.1 = 0 ∨ run.1 = 1 ∨ run.1 = 2)%Z ∧
  (run.1 ≠ 0%Z → committed run.2 = committed p) ∧
  (run.1 = 0%Z →
   help_called cl = true ∧ committed run.2 = committed p ∧ calls run.2 = calls p ∨
   help_called cl = false ∧ established p ∧
   ∃ w', runMigration string Some id (migration_start p) = (Ok tt, w') ∧
         driver_says w' = None ∧ committed run.2 = dest w').
Proof.
  cbv zeta. do 3 (split; [by vm_compute|]).
  apply (X8_exit_status_and_commit string Some id sample_command_line
           (process sample_world)).
  apply surjective_pairing.
Defined.

(** X9 on a process whose migration panics: it exits with 2 after the four
    deferred calls, without a commit. *)
Lemma X9_witness :
  let cl := sample_command_line in
  let p := process (world second_broken_source empty_dest) in
  let run := run_main string Some id cl p in
  run.1 = 2%Z ∧
  calls run.2 =
    [Connect "postgres" "postgres://old"; Connect "postgres" "postgres://new";
     Begin_source; Begin_dest;
     Rollback_dest; Rollback_source; Close_dest; Close_source] ∧
  (run.1 = 0%Z →
   calls run.2 = calls p ++ setup_calls cl ++ [Commit_dest] ++ cleanup_calls
                   ++ deferred p) ∧
  (run.1 = 2%Z →
   calls run.2 = calls p ++ setup_calls cl ++ cleanup_calls ++ deferred p) ∧
  (run.1 = 1%Z →
   ∃ n, (1 ≤ n)%nat ∧
        calls run.2 = calls p ++ take n (setup_calls cl ++ [Commit_dest])).
Proof.
  cbv zeta. do 2 (split; [by vm_compute|]).
  apply (X9_exit_skips_the_deferred_calls string Some id sample_command_line
           (process (world second_broken_source empty_dest))).
  - apply surjective_pairing.
  - reflexivity.
Defined.

(** X10 on a process whose source is empty: the user stage fails for want
    of values, and main reports it. *)
Lemma X10_witness :
  let cl := sample_command_line in
  let p := process (world empty_source empty_dest) in
  (run_main string Some id cl p).1 = 1%Z ∧
  stderr (run_main string Some id cl p).2 =
    ["database migration failed: user migration failed: " +:+ no_values +:+ newline] ∧
  ∃ p' stage cause,
    run_main string Some id cl p = (1%Z, p') ∧
    stage ∈ stage_messages ∧
    Wrap (Wrap (errorString no_values) "user migration failed") migration_failed =
      Wrap (Wrap cause stage) "database migration failed" ∧
    stderr p' = stderr p ++ usage_lines cl ++
      ["database migration failed: " +:+ stage +:+ ": " +:+ Error cause +:+ newline] ∧
    calls p' = calls p ++ setup_calls cl ∧
    committed p' = committed p.
Proof.
  cbv zeta. do 2 (split; [by vm_compute|]).
  apply (X10_migration_error_is_reported_not_committed string Some id
           sample_command_line (process (world empty_source empty_dest))
           (Wrap (Wrap (errorString no_values) "user migration failed") migration_failed)
           (runMigration string Some id
              (migration_start (process (world empty_source empty_dest)))).2).
  - reflexivity.
  - by vm_compute.
  - by vm_compute.
Defined.

(** X11 on the command line without its option source, with a driver that
    cannot reach the source database: the usage error is written, then the
    connection is tried with the empty string. *)
Lemma X11_witness :
  let cl := usage_error_command_line in
  let p := process (failing [Some "pq: no such host"] sample_world) in
  let run := run_main string Some id cl p in
  run.1 = 1%Z ∧
  calls run.2 = [Connect "postgres" ""] ∧
  length (stderr run.2) = 3 ∧
  (help_called cl = true →
   run.1 = 0%Z ∧ stderr run.2 = stderr p ++ [help_text cl] ∧ calls run.2 = calls p) ∧
  (help_called cl = false →
   ∀ err, parse_error cl = Some err →
   ∃ more_lines more_calls,
     stderr run.2 = stderr p ++
       ["Error: " +:+ Error err +:+ newline +:+ newline; synopsis_text cl]
       ++ more_lines ∧
     calls run.2 = calls p ++ Connect "postgres" (source_option cl) :: more_calls).
Proof.
  cbv zeta. do 3 (split; [by vm_compute|]).
  apply (X11_usage_error_does_not_stop_main string Some id usage_error_command_line
           (process (failing [Some "pq: no such host"] sample_world))).
  apply surjective_pairing.
Defined.

(** X12 on a process whose connection to the destination is refused. *)
Lemma X12_witness :
  let cl := sample_command_line in
  let p := process (failing [None; Some "dial tcp: connection refused"] sample_world) in
  let line := "destination database: unable to initialize the database: "
              +:+ "dial tcp: connection refused" +:+ newline in
  ∃ p', run_main string Some id cl p = (1%Z, p') ∧
        stderr p' = stderr p ++ usage_lines cl ++ [line] ∧
        calls p' = calls p ++ take 2 (setup_calls cl) ∧
        (2 ≤ 4)%nat ∧
        committed p' = committed p ∧
        stdout (proc_world p') = stdout (proc_world p) ∧
        issued (proc_world p') = issued (proc_world p).
Proof.
  cbv zeta.
  apply (X12_setup_failure_ends_the_process string Some id sample_command_line
           (process (failing [None; Some "dial tcp: connection refused"] sample_world))).
  - reflexivity.
  - by vm_compute.
Defined.

